(** * The immigration ETL pipeline of [etl.py], embedded in Rocq

    The development follows the source file top to bottom: the label-document
    parser, the five cleaners, the two table builders and the driver [main]
    with its data-quality checks.  Relations (Spark data frames) are lists of
    rows; a row is a record with one field per column, every column nullable.

    Conventions.
    - Text is a list of 8-bit characters (code points below 256).
    - The numeric columns of the immigration data hold whole numbers (day
      offsets, years), carried as [Z]; a column whose type the source leaves
      to the data is a dynamically typed [value].
    - A Python exception is a [Raise] result.
    - The engine's own comparison of a code-book column with an immigration
      column (the SQL [=] with its implicit casts) is a parameter of the
      fact-table builder. *)

From Stdlib Require Import String Ascii Bool Arith ZArith Lia List.
Import ListNotations.

Set Implicit Arguments.

(* ================================================================= *)
(** ** Text, as Python [str] *)

Definition text := list ascii.

Definition txt (s : string) : text := list_ascii_of_string s.
Arguments txt s%_string.

Definition text_eq_dec : forall a b : text, {a = b} + {a <> b} :=
  list_eq_dec ascii_dec.

Definition text_eqb (a b : text) : bool :=
  if text_eq_dec a b then true else false.

(** [s.startswith(p)] *)
Fixpoint startswith (p s : text) : bool :=
  match p, s with
  | [], _ => true
  | _ :: _, [] => false
  | a :: p', b :: s' => Ascii.eqb a b && startswith p' s'
  end.

(** [s.find(sub)]: the lowest position at which [sub] occurs in [s]. *)
Fixpoint find (sub s : text) : option nat :=
  if startswith sub s then Some 0%nat
  else match s with
       | [] => None
       | _ :: s' => option_map S (find sub s')
       end.

(** [s.split(sep)] for a one-character separator: never empty, one more
    part than there are separators. *)
Fixpoint split (sep : ascii) (s : text) : list text :=
  match s with
  | [] => [[]]
  | c :: s' =>
      if Ascii.eqb c sep then [] :: split sep s'
      else match split sep s' with
           | [] => [[c]]
           | part :: parts => (c :: part) :: parts
           end
  end.

Fixpoint lstrip_by (p : ascii -> bool) (s : text) : text :=
  match s with
  | [] => []
  | c :: s' => if p c then lstrip_by p s' else s
  end.

Definition rstrip_by (p : ascii -> bool) (s : text) : text :=
  rev (lstrip_by p (rev s)).

Definition strip_by (p : ascii -> bool) (s : text) : text :=
  rstrip_by p (lstrip_by p s).

(** The characters [str.strip()] removes, among code points below 256:
    TAB, LF, VT, FF, CR, FS, GS, RS, US, space, NEL and NBSP. *)
Definition isspace (c : ascii) : bool :=
  let n := nat_of_ascii c in
  ((9 <=? n) && (n <=? 13) || (28 <=? n) && (n <=? 32)
   || (n =? 133) || (n =? 160))%nat.

(** [s.strip()] *)
Definition strip (s : text) : text := strip_by isspace s.

(** [s.strip(chars)] *)
Definition strip_chars (chars s : text) : text :=
  strip_by (fun c => existsb (Ascii.eqb c) chars) s.

(** Truth value of a Python [str]. *)
Definition nonempty (s : text) : bool :=
  match s with [] => false | _ :: _ => true end.

(* ================================================================= *)
(** ** Exceptions and results *)

(** The two [str.index] calls of the parser both raise [ValueError]; the
    constructor records which lookup failed.  [NaNValueError] is the
    [ValueError] of [timedelta] on a NaN, "cannot convert float NaN to
    integer". *)
Inductive lookup := BlockName | Terminator.

Inductive exn :=
| ValueError (what : lookup)
| NaNValueError
| OverflowError
| TypeError
| Exception (msg : string).

Inductive result (A : Type) :=
| Ok (a : A)
| Raise (e : exn).
Arguments Ok {A} a.
Arguments Raise {A} e.

Definition bind {A B} (r : result A) (k : A -> result B) : result B :=
  match r with
  | Ok a => k a
  | Raise e => Raise e
  end.

Notation "x <- r ;; k" := (bind r (fun x => k))
  (at level 61, r at next level, right associativity).

Fixpoint mapM {A B} (f : A -> result B) (l : list A) : result (list B) :=
  match l with
  | [] => Ok []
  | a :: l' => b <- f a ;; bs <- mapM f l' ;; Ok (b :: bs)
  end.

(** [s.index(sub)] *)
Definition index (s sub : text) (what : lookup) : result nat :=
  match find sub s with
  | Some i => Ok i
  | None => Raise (ValueError what)
  end.

(** Names the specification gives to the two failures of the parser. *)
Definition BlockNotFoundError : exn := ValueError BlockName.
Definition MalformedBlockError : exn := ValueError Terminator.

(* ================================================================= *)
(** ** The label-document parser *)

Definition LF : ascii := "010"%char.

(** One turn of the loop over [lines]. *)
Definition add_line (code_value_pairs : list (text * text)) (line : text)
  : list (text * text) :=
  let parts := split "="%char line in
  if negb (length parts =? 2)%nat then code_value_pairs
  else
    let code := strip_chars (txt "'") (strip (nth 0 parts [])) in
    let value := strip_chars (txt "'") (strip (nth 1 parts [])) in
    code_value_pairs ++ [(code, value)].

(** [get_data_from_sas_labels_file], the document text passed in. *)
Definition get_data_from_sas_labels_file (file_data label_name : text)
  : result (list (text * text)) :=
  i <- index file_data label_name BlockName ;;
  let label_data := skipn i file_data in
  j <- index label_data (txt ";") Terminator ;;
  let label_data := firstn j label_data in
  let lines := split LF label_data in
  Ok (fold_left add_line lines []).

(* ================================================================= *)
(** ** Relations *)

(** SQL truth values: [None] is UNKNOWN, the value of a comparison with
    NULL.  A [WHERE], [ON] or [filter] keeps a row only on [Some true]. *)
Definition tv := option bool.

Definition holds (b : tv) : bool :=
  match b with Some true => true | _ => false end.

Definition sql_and (a b : tv) : tv :=
  match a, b with
  | Some false, _ | _, Some false => Some false
  | Some true, Some true => Some true
  | _, _ => None
  end.

(** [a = b] and [a != b] on nullable strings. *)
Definition sql_eq (a b : option text) : tv :=
  match a, b with
  | Some x, Some y => Some (text_eqb x y)
  | _, _ => None
  end.

Definition sql_neq (a b : option text) : tv :=
  option_map negb (sql_eq a b).

Definition is_not_null {A} (a : option A) : bool :=
  match a with Some _ => true | None => false end.

(** [dropDuplicates()]: one row is kept of each class of equal rows. *)
Definition dropDuplicates {A} (eq_dec : forall x y : A, {x = y} + {x <> y})
  (df : list A) : list A :=
  nodup eq_dec df.

Definition option_eq_dec {A} (eq_dec : forall x y : A, {x = y} + {x <> y})
  : forall x y : option A, {x = y} + {x <> y}.
Proof. decide equality. Defined.

Definition otext_eq_dec : forall x y : option text, {x = y} + {x <> y} :=
  option_eq_dec text_eq_dec.

Definition oZ_eq_dec : forall x y : option Z, {x = y} + {x <> y} :=
  option_eq_dec Z.eq_dec.

(** *** The five code-books, with the schemas of [get_i94_countries],
    [get_i94_ports], [get_i94_states], [get_i94_travel_modes] and
    [get_i94_visas].  The modules carry the aliases of the SQL text. *)

Module sc.
Record row := mk { country_code : option text; country_name : option text }.
End sc.

Module i94port.
Record row := mk { port_code : option text; port_name : option text }.
End i94port.

Module sus.
Record row := mk { state_code : option text; state_name : option text }.
End sus.

Module stm.
Record row := mk { mode_id : option text; mode_name : option text }.
End stm.

Module svc.
Record row :=
  mk { visa_category_id : option text; visa_category : option text }.
End svc.

(** The cleaned ports relation: [port_name] replaced by [city] and
    [state_code]. *)
Module sp.
Record row :=
  mk { port_code : option text; city : option text;
       state_code : option text }.

Definition eq_dec : forall x y : row, {x = y} + {x <> y}.
Proof. decide equality; apply otext_eq_dec. Defined.
End sp.

Definition createDataFrame {R} (mk : option text -> option text -> R)
  (data : list (text * text)) : list R :=
  map (fun p => mk (Some (fst p)) (Some (snd p))) data.

Definition get_i94_countries (file_data : text) : result (list sc.row) :=
  pairs <- get_data_from_sas_labels_file file_data (txt "I94RES") ;;
  Ok (createDataFrame sc.mk pairs).

Definition get_i94_ports (file_data : text) : result (list i94port.row) :=
  pairs <- get_data_from_sas_labels_file file_data (txt "I94PORT") ;;
  Ok (createDataFrame i94port.mk pairs).

Definition get_i94_states (file_data : text) : result (list sus.row) :=
  pairs <- get_data_from_sas_labels_file file_data (txt "I94ADDR") ;;
  Ok (createDataFrame sus.mk pairs).

Definition get_i94_travel_modes (file_data : text) : result (list stm.row) :=
  pairs <- get_data_from_sas_labels_file file_data (txt "I94MODE") ;;
  Ok (createDataFrame stm.mk pairs).

Definition get_i94_visas (file_data : text) : result (list svc.row) :=
  pairs <- get_data_from_sas_labels_file file_data (txt "I94VISA") ;;
  Ok (createDataFrame svc.mk pairs).

(* ================================================================= *)
(** ** Ports, countries and states cleaners *)

(** [port_name.split(',')[0].strip() if port_name else None] *)
Definition get_city_name (port_name : option text) : option text :=
  match port_name with
  | Some name =>
      if nonempty name then Some (strip (nth 0 (split ","%char name) []))
      else None
  | None => None
  end.

(** [port_name.split(',')[1].strip()
     if (port_name and len(port_name.split(',')) > 1) else None] *)
Definition get_state_code (port_name : option text) : option text :=
  match port_name with
  | Some name =>
      if nonempty name && (1 <? length (split ","%char name))%nat
      then Some (strip (nth 1 (split ","%char name) []))
      else None
  | None => None
  end.

Definition ports_has_null (r : sp.row) : bool :=
  negb (is_not_null (sp.port_code r) && is_not_null (sp.city r)
        && is_not_null (sp.state_code r)).

Definition clean_ports_data (ports_df : list i94port.row) : list sp.row :=
  let with_columns :=
    map (fun r => sp.mk (i94port.port_code r)
                        (get_city_name (i94port.port_name r))
                        (get_state_code (i94port.port_name r))) ports_df in
  let dropna := filter (fun r => negb (ports_has_null r)) with_columns in
  dropDuplicates sp.eq_dec dropna.

(** The pattern ['^No Country.*|INVALID.*|Collapsed.*']: three alternatives,
    each a literal followed by [.*]; only the first is anchored, [^] binding
    tighter than [|]. *)
Definition alternatives : list (bool * text) :=
  [ (true, txt "No Country"); (false, txt "INVALID");
    (false, txt "Collapsed") ].

(** The characters [.] does not match: LF, CR and NEL. *)
Definition line_terminator (c : ascii) : bool :=
  let n := nat_of_ascii c in ((n =? 10) || (n =? 13) || (n =? 133))%nat.

(** Does some alternative match at the head of [s]?  [at_start] tells
    whether [s] is the whole input. *)
Definition matches_here (at_start : bool) (s : text) : bool :=
  existsb (fun alt => implb (fst alt) at_start && startswith (snd alt) s)
          alternatives.

(** [regexp_replace(_, pattern, 'NA')] on one string: scan left to right;
    at a match emit [NA] and skip what [.*] consumes, the rest of the line;
    resume at the line terminator.  [in_match] is set while skipping. *)
Fixpoint replace_all (at_start in_match : bool) (s : text) : text :=
  match s with
  | [] => []
  | c :: s' =>
      if in_match then
        if line_terminator c then c :: replace_all false false s'
        else replace_all false true s'
      else if matches_here at_start s then
        txt "NA" ++ replace_all false true s'
      else c :: replace_all false false s'
  end.

Definition regexp_replace (s : option text) : option text :=
  option_map (replace_all true false) s.

Definition clean_countries_data (countries_df : list sc.row) : list sc.row :=
  map (fun r => sc.mk (sc.country_code r) (regexp_replace (sc.country_name r)))
      countries_df.

(** [filter('state_code != "99"')] *)
Definition clean_states_data (states_df : list sus.row) : list sus.row :=
  filter (fun r => holds (sql_neq (sus.state_code r) (Some (txt "99"))))
         states_df.

(* ================================================================= *)
(** ** Calendar arithmetic, as in Python's [datetime] *)

Local Open Scope Z_scope.

Definition _DAYS_IN_MONTH : list Z :=
  [-1; 31; 28; 31; 30; 31; 30; 31; 31; 30; 31; 30; 31].

Definition _DAYS_BEFORE_MONTH : list Z :=
  [-1; 0; 31; 59; 90; 120; 151; 181; 212; 243; 273; 304; 334].

Definition _MAXORDINAL : Z := 3652059.

Definition _is_leap (year : Z) : bool :=
  (year mod 4 =? 0) && (negb (year mod 100 =? 0) || (year mod 400 =? 0)).

Definition _days_before_year (year : Z) : Z :=
  let y := year - 1 in y * 365 + y / 4 - y / 100 + y / 400.

Definition _days_in_month (year month : Z) : Z :=
  if (month =? 2) && _is_leap year then 29
  else nth (Z.to_nat month) _DAYS_IN_MONTH 0.

Definition _days_before_month (year month : Z) : Z :=
  nth (Z.to_nat month) _DAYS_BEFORE_MONTH 0
  + (if (2 <? month) && _is_leap year then 1 else 0).

Definition _ymd2ord (year month day : Z) : Z :=
  _days_before_year year + _days_before_month year month + day.

Definition _DI400Y : Z := 146097.
Definition _DI100Y : Z := 36524.
Definition _DI4Y : Z := 1461.

Record date := mkdate { year : Z; month : Z; day : Z }.

Definition _ord2ymd (n : Z) : date :=
  let n := n - 1 in
  let n400 := n / _DI400Y in
  let n := n mod _DI400Y in
  let year := n400 * 400 + 1 in
  let n100 := n / _DI100Y in
  let n := n mod _DI100Y in
  let n4 := n / _DI4Y in
  let n := n mod _DI4Y in
  let n1 := n / 365 in
  let n := n mod 365 in
  let year := year + (n100 * 100 + n4 * 4 + n1) in
  if (n1 =? 4) || (n100 =? 4) then mkdate (year - 1) 12 31
  else
    let leapyear := (n1 =? 3) && (negb (n4 =? 24) || (n100 =? 3)) in
    let month := Z.shiftr (n + 50) 5 in
    let preceding :=
      nth (Z.to_nat month) _DAYS_BEFORE_MONTH 0
      + (if (2 <? month) && leapyear then 1 else 0) in
    if n <? preceding then
      let month := month - 1 in
      let preceding :=
        preceding - (nth (Z.to_nat month) _DAYS_IN_MONTH 0
                     + (if (month =? 2) && leapyear then 1 else 0)) in
      mkdate year month (n - preceding + 1)
    else mkdate year month (n - preceding + 1).

Definition toordinal (d : date) : Z := _ymd2ord (year d) (month d) (day d).

(** [date + timedelta(days)] *)
Definition date_add (d : date) (days : Z) : result date :=
  if 999999999 <? Z.abs days then Raise OverflowError
  else
    let o := toordinal d + days in
    if (0 <? o) && (o <=? _MAXORDINAL) then Ok (_ord2ymd o)
    else Raise OverflowError.

Definition digit (n : Z) : ascii := ascii_of_nat (48 + Z.to_nat n).

(** ["%04d-%02d-%02d" % (year, month, day)], the years being 1 to 9999 *)
Definition isoformat (d : date) : text :=
  [ digit (year d / 1000); digit (year d / 100 mod 10);
    digit (year d / 10 mod 10); digit (year d mod 10); "-"%char;
    digit (month d / 10); digit (month d mod 10); "-"%char;
    digit (day d / 10); digit (day d mod 10) ].

(* ================================================================= *)
(** ** The immigration cleaner *)

(** A cell of the immigration relation: NULL, a text or a number.  The
    relation holds its numbers as doubles.  Of a double the pipeline uses
    its truth value, its order with 1900 and 2016, the days [timedelta]
    makes of it and the text it is stored as in a string column, so a
    double is kept as follows:
    - [VNum z] is the whole number [z], zero of either sign being [VNum 0];
    - [VFrac below next_day decimals] is a number that is not whole:
      [below] is the whole number just below it, [decimals] are the digits
      [Double.toString] writes after the point, and [next_day] tells
      whether it lies within half a microsecond of a day of [below + 1]:
      [timedelta] rounds to the microsecond and then holds [below + 1]
      days, where it holds [below] days otherwise;
    - [VNaN] is not-a-number, [VInf negative] an infinity. *)
Inductive value :=
| VNull
| VNum (z : Z)
| VFrac (below : Z) (next_day : bool) (decimals : text)
| VNaN
| VInf (negative : bool)
| VStr (s : text).

Definition value_eq_dec : forall x y : value, {x = y} + {x <> y}.
Proof.
  decide equality;
    first [apply Z.eq_dec | apply text_eq_dec | apply Bool.bool_dec].
Defined.

(** The columns [etl.py] names, and [others] for the rest of the row. *)
Module sid.
Record row := mk {
  cicid : value; i94yr : value; i94mon : value; i94res : value;
  i94port : value; arrdate : value; i94mode : value; i94addr : value;
  depdate : value; i94bir : value; i94visa : value; occup : value;
  gender : value; biryear : value; dtaddto : value; airline : value;
  admnum : value; fltno : value; visatype : value;
  others : list value }.

Definition eq_dec : forall x y : row, {x = y} + {x <> y}.
Proof.
  decide equality;
    try apply value_eq_dec; apply (list_eq_dec value_eq_dec).
Defined.

Definition with_arrdate (r : row) (v : value) : row :=
  mk (cicid r) (i94yr r) (i94mon r) (i94res r) (i94port r) v (i94mode r)
     (i94addr r) (depdate r) (i94bir r) (i94visa r) (occup r) (gender r)
     (biryear r) (dtaddto r) (airline r) (admnum r) (fltno r) (visatype r)
     (others r).

Definition with_depdate (r : row) (v : value) : row :=
  mk (cicid r) (i94yr r) (i94mon r) (i94res r) (i94port r) (arrdate r)
     (i94mode r) (i94addr r) v (i94bir r) (i94visa r) (occup r) (gender r)
     (biryear r) (dtaddto r) (airline r) (admnum r) (fltno r) (visatype r)
     (others r).

Definition with_biryear (r : row) (v : value) : row :=
  mk (cicid r) (i94yr r) (i94mon r) (i94res r) (i94port r) (arrdate r)
     (i94mode r) (i94addr r) (depdate r) (i94bir r) (i94visa r) (occup r)
     (gender r) v (dtaddto r) (airline r) (admnum r) (fltno r) (visatype r)
     (others r).
End sid.

Definition epoch : date := mkdate 1960 1 1.

(** The days [timedelta(x)] holds for a number that is not whole: the
    number is rounded to the microsecond, and the days are the whole days
    below the result. *)
Definition days_of (below : Z) (next_day : bool) : Z :=
  if next_day then below + 1 else below.

(** [lambda x: (datetime(1960, 1, 1).date() + timedelta(x)).isoformat()
     if x else None].  Zero, the empty string and [None] are false, every
    other number is true, NaN included.  The date is moved by the days of
    the [timedelta] alone: the rest of a number that is not whole is
    dropped.  [timedelta] raises [ValueError] on NaN, [OverflowError] on an
    infinity and [TypeError] on a string. *)
Definition get_isoformat_date (x : value) : result value :=
  match x with
  | VNull => Ok VNull
  | VNum z =>
      if z =? 0 then Ok VNull
      else d <- date_add epoch z ;; Ok (VStr (isoformat d))
  | VFrac below next_day _ =>
      d <- date_add epoch (days_of below next_day) ;; Ok (VStr (isoformat d))
  | VNaN => Raise NaNValueError
  | VInf _ => Raise OverflowError
  | VStr s => if nonempty s then Raise TypeError else Ok VNull
  end.

(** [Double.toString] on a number from 1000 to 9999: the four digits of
    its whole part, the point and its decimals, ["1979.0"] for 1979. *)
Definition Double_toString (whole : Z) (decimals : text) : text :=
  [ digit (whole / 1000); digit (whole / 100 mod 10);
    digit (whole / 10 mod 10); digit (whole mod 10); "."%char ]
  ++ decimals.

(** [lambda yr: yr if (yr and 1900 <= yr <= 2016) else None], under
    [udf] without a return type: the new column is a [StringType] one, and
    the number the function returns is stored as the text
    [Double.toString] gives.  A number that is not whole lies between
    [below] and [below + 1]; NaN and the infinities fail a comparison. *)
Definition get_valid_birth_year (yr : value) : result value :=
  match yr with
  | VNull => Ok VNull
  | VNum z =>
      if z =? 0 then Ok VNull
      else if (1900 <=? z) && (z <=? 2016)
           then Ok (VStr (Double_toString z (txt "0")))
           else Ok VNull
  | VFrac below _ decimals =>
      if (1900 <=? below) && (below + 1 <=? 2016)
      then Ok (VStr (Double_toString below decimals))
      else Ok VNull
  | VNaN | VInf _ => Ok VNull
  | VStr s => if nonempty s then Raise TypeError else Ok VNull
  end.

(** The three [withColumn] calls on one row; each function reads the
    column of the incoming relation. *)
Definition clean_immigration_row (r : sid.row) : result sid.row :=
  a <- get_isoformat_date (sid.arrdate r) ;;
  d <- get_isoformat_date (sid.depdate r) ;;
  b <- get_valid_birth_year (sid.biryear r) ;;
  Ok (sid.with_biryear (sid.with_depdate (sid.with_arrdate r a) d) b).

(** The cleaned relation, as an action on it finds it: [dropDuplicates]
    compares whole rows, so every row is converted, and the evaluation
    fails when the conversion of a row raises. *)
Definition clean_immigration_data (immigration_df : list sid.row)
  : result (list sid.row) :=
  rows <- mapM clean_immigration_row immigration_df ;;
  Ok (dropDuplicates sid.eq_dec rows).

(* ================================================================= *)
(** ** The demographics cleaner *)

(** A [DoubleType] cell, as its 64 bits, a number from 0 to 2^64 - 1: the
    sign, eleven bits of exponent and fifty-two bits of fraction.  The
    pipeline tests it for NULL and NaN and compares it for equality. *)
Definition double := Z.

(** NaN: the exponent is all ones and the fraction is not zero. *)
Definition isnan (x : double) : bool :=
  (Z.land (Z.shiftr x 52) 2047 =? 2047)
  && negb (Z.land x (Z.ones 52) =? 0).

(** Negative zero: the sign bit alone. *)
Definition negative_zero : double := Z.shiftl 1 63.

Module sud.
Record row := mk {
  city : option text; state : option text; median_age : option double;
  male_population : option Z; female_population : option Z;
  total_population : option Z; number_of_veterans : option Z;
  foreign_born : option Z; average_household_size : option double;
  state_code : option text; race : option text; count : option Z }.

Definition eq_dec : forall x y : row, {x = y} + {x <> y}.
Proof. decide equality; try apply otext_eq_dec; apply oZ_eq_dec. Defined.

(** A cell of a double column that holds NaN. *)
Definition is_nan (c : option double) : bool :=
  match c with Some x => isnan x | None => false end.

(** What [dropna()] drops a row for: a NULL in a column, or a NaN in one
    of the two double columns. *)
Definition has_null (r : row) : bool :=
  negb (is_not_null (city r) && is_not_null (state r)
        && is_not_null (median_age r) && is_not_null (male_population r)
        && is_not_null (female_population r)
        && is_not_null (total_population r)
        && is_not_null (number_of_veterans r) && is_not_null (foreign_born r)
        && is_not_null (average_household_size r)
        && is_not_null (state_code r) && is_not_null (race r)
        && is_not_null (count r))
  || is_nan (median_age r) || is_nan (average_household_size r).

(** Rows are compared with the zeros of the double columns made one:
    negative zero counts as zero, and is zero in the row that is kept. *)
Definition normalize_double (c : option double) : option double :=
  match c with
  | Some x => Some (if x =? negative_zero then 0 else x)
  | None => None
  end.

Definition normalize (r : row) : row :=
  mk (city r) (state r) (normalize_double (median_age r))
     (male_population r) (female_population r) (total_population r)
     (number_of_veterans r) (foreign_born r)
     (normalize_double (average_household_size r)) (state_code r) (race r)
     (count r).
End sud.

(** [dropna()], then [dropDuplicates()] on the rows with their zeros made
    one. *)
Definition clean_us_demographics_data (us_demographics_df : list sud.row)
  : list sud.row :=
  dropDuplicates sud.eq_dec
    (map sud.normalize
         (filter (fun r => negb (sud.has_null r)) us_demographics_df)).

(* ================================================================= *)
(** ** The immigration fact table *)

Module fact.
Record row := mk {
  cicid : value; entry_year : value; entry_month : value;
  origin_country_code : option text; port_code : option text;
  arrival_date : value; travel_mode_code : option text;
  us_state_code : option text; departure_date : value; age : value;
  visa_category_code : option text; occupation : value; gender : value;
  birth_year : value; entry_date : value; airline : value;
  admission_number : value; flight_number : value; visa_type : value }.
End fact.

(** [l LEFT JOIN r ON on]: every left row with each of its matches, or
    once with a NULL-extended right side when nothing matches. *)
Definition left_join {A B} (on : A -> B -> tv) (l : list A) (r : list B)
  : list (A * option B) :=
  flat_map (fun a =>
              match filter (fun b => holds (on a b)) r with
              | [] => [(a, None)]
              | matches => map (fun b => (a, Some b)) matches
              end) l.

(** A column of the right side of a left join. *)
Definition col {B C} (f : B -> option C) (b : option B) : option C :=
  match b with Some r => f r | None => None end.

Section FactTable.

(** [code = v] as the engine evaluates it between a string column of a
    code-book and a column of the immigration relation. *)
Variable code_eq : option text -> value -> tv.

Definition joined : Type :=
  sid.row * option sc.row * option sp.row * option sus.row
  * option svc.row * option stm.row.

Definition from_clause (immigration_df : list sid.row)
  (countries_df : list sc.row) (us_states_df : list sus.row)
  (ports_df : list sp.row) (visa_categories_df : list svc.row)
  (travel_modes_df : list stm.row) : list joined :=
  let j1 := left_join (fun s c => code_eq (sc.country_code c) (sid.i94res s))
                      immigration_df countries_df in
  let j2 := left_join (fun j p => code_eq (sp.port_code p)
                                          (sid.i94port (fst j)))
                      j1 ports_df in
  let j3 := left_join (fun j u => code_eq (sus.state_code u)
                                          (sid.i94addr (fst (fst j))))
                      j2 us_states_df in
  let j4 := left_join (fun j v => code_eq (svc.visa_category_id v)
                                          (sid.i94visa (fst (fst (fst j)))))
                      j3 visa_categories_df in
  left_join (fun j m => code_eq (stm.mode_id m)
                                (sid.i94mode (fst (fst (fst (fst j))))))
            j4 travel_modes_df.

Definition where_clause (j : joined) : bool :=
  let '(_, c, p, u, v, m) := j in
  is_not_null (col sc.country_code c) && is_not_null (col sp.port_code p)
  && is_not_null (col sus.state_code u) && is_not_null (col stm.mode_id m)
  && is_not_null (col svc.visa_category_id v).

Definition select_clause (j : joined) : fact.row :=
  let '(s, c, p, u, v, m) := j in
  fact.mk (sid.cicid s) (sid.i94yr s) (sid.i94mon s)
          (col sc.country_code c) (col sp.port_code p) (sid.arrdate s)
          (col stm.mode_id m) (col sus.state_code u) (sid.depdate s)
          (sid.i94bir s) (col svc.visa_category_id v) (sid.occup s)
          (sid.gender s) (sid.biryear s) (sid.dtaddto s) (sid.airline s)
          (sid.admnum s) (sid.fltno s) (sid.visatype s).

Definition create_immigration_fact_table (immigration_df : list sid.row)
  (countries_df : list sc.row) (us_states_df : list sus.row)
  (ports_df : list sp.row) (visa_categories_df : list svc.row)
  (travel_modes_df : list stm.row) : list fact.row :=
  map select_clause
      (filter where_clause
              (from_clause immigration_df countries_df us_states_df ports_df
                           visa_categories_df travel_modes_df)).

End FactTable.

(* ================================================================= *)
(** ** The city-demographics dimension *)

(** [combined_demographics], the aggregated relation. *)
Module cd.
Record row := mk {
  city : option text; state_code : option text;
  male_population : option Z; female_population : option Z;
  total_population : option Z; number_of_veterans : option Z;
  num_foreign_born : option Z }.
End cd.

(** The rows of the dimension: [sp.port_code AS port_code, cd.*]. *)
Module dim.
Record row := mk { port_code : option text; demographics : cd.row }.
End dim.

(** [SUM(column)]: NULL cells are skipped, and the sum of no cell is NULL. *)
Fixpoint SUM (cells : list (option Z)) : option Z :=
  match cells with
  | [] => None
  | None :: cells' => SUM cells'
  | Some z :: cells' =>
      match SUM cells' with
      | Some total => Some (z + total)
      | None => Some z
      end
  end.

Definition key : Type := option text * option text.

Definition key_eq_dec : forall x y : key, {x = y} + {x <> y}.
Proof. decide equality; apply otext_eq_dec. Defined.

Definition group_key (r : sud.row) : key := (sud.city r, sud.state_code r).

(** The rows of one group of [GROUP BY sud.city, sud.state_code]. *)
Definition group (k : key) (df : list sud.row) : list sud.row :=
  filter (fun r => if key_eq_dec (group_key r) k then true else false) df.

Definition aggregate (k : key) (rows : list sud.row) : cd.row :=
  cd.mk (fst k) (snd k)
        (SUM (map sud.male_population rows))
        (SUM (map sud.female_population rows))
        (SUM (map sud.total_population rows))
        (SUM (map sud.number_of_veterans rows))
        (SUM (map sud.foreign_born rows)).

Definition aggregated_df (us_demographics_df : list sud.row) : list cd.row :=
  map (fun k => aggregate k (group k us_demographics_df))
      (nodup key_eq_dec (map group_key us_demographics_df)).

(** [lower(c)] on one character: A to Z and the capital letters of
    Latin-1. *)
Definition lower_char (c : ascii) : ascii :=
  let n := nat_of_ascii c in
  if ((65 <=? n) && (n <=? 90)
      || (192 <=? n) && (n <=? 222) && negb (n =? 215))%nat
  then ascii_of_nat (n + 32) else c.

Definition lower (s : option text) : option text :=
  option_map (map lower_char) s.

(** [ON lower(cd.city) = lower(sp.city) AND cd.state_code = sp.state_code] *)
Definition on_city_state (p : sp.row) (c : cd.row) : tv :=
  sql_and (sql_eq (lower (cd.city c)) (lower (sp.city p)))
          (sql_eq (cd.state_code c) (sp.state_code p)).

(** [a JOIN b ON on] *)
Definition inner_join {A B} (on : A -> B -> tv) (l : list A) (r : list B)
  : list (A * B) :=
  flat_map (fun a => map (fun b => (a, b))
                         (filter (fun b => holds (on a b)) r)) l.

Definition create_city_demographics_dim_table
  (us_demographics_df : list sud.row) (ports_df : list sp.row)
  : list dim.row :=
  map (fun j => dim.mk (sp.port_code (fst j)) (snd j))
      (inner_join on_city_state ports_df (aggregated_df us_demographics_df)).

(* ================================================================= *)
(** ** The driver *)

Inductive dataframe :=
| immigration_fact (rows : list fact.row)
| city_demographics (rows : list dim.row)
| countries (rows : list sc.row)
| us_states (rows : list sus.row)
| ports (rows : list sp.row)
| travel_modes (rows : list stm.row)
| visa_categories (rows : list svc.row).

(** [df.count()] *)
Definition count (df : dataframe) : nat :=
  match df with
  | immigration_fact rows => length rows
  | city_demographics rows => length rows
  | countries rows => length rows
  | us_states rows => length rows
  | ports rows => length rows
  | travel_modes rows => length rows
  | visa_categories rows => length rows
  end.

(** One output of the run: its path, its partition columns, its rows. *)
Record parquet :=
  mkparquet { path : string; partitionBy : list string; data : dataframe }.

(** The output directory. *)
Definition storage := list parquet.

(** A statement of [main]: it runs on the storage and either finishes or
    raises, leaving the storage as it was at that point. *)
Definition stmt (A : Type) := storage -> result A * storage.

Definition ret {A} (a : A) : stmt A := fun st => (Ok a, st).

Definition seq {A B} (s : stmt A) (k : A -> stmt B) : stmt B :=
  fun st => match s st with
            | (Ok a, st') => k a st'
            | (Raise e, st') => (Raise e, st')
            end.

Notation "x <~ s ;; k" := (seq s (fun x => k))
  (at level 61, s at next level, right associativity).
Notation "s ;;; k" := (seq s (fun _ => k))
  (at level 61, right associativity).

(** A call that may raise. *)
Definition call {A} (r : result A) : stmt A := fun st => (r, st).

(** [raise e] *)
Definition raise (e : exn) : stmt unit := fun st => (Raise e, st).

(** An expression used as a statement: evaluated, its value dropped. *)
Definition expression {A} (_ : A) : stmt unit := ret tt.

(** [if cond: body] *)
Definition if_ (cond : bool) (body : stmt unit) : stmt unit :=
  if cond then body else ret tt.

(** The path [q] is the directory [p] or lies in it. *)
Definition within (p q : string) : bool :=
  String.eqb q p || String.prefix (String.append p "/") q.

(** [df.write.mode('overwrite').partitionBy(cols).parquet(path)]: the
    directory at the path goes, with all it holds, and the relation is
    written in its place. *)
Definition write (df : dataframe) (cols : list string) (p : string)
  : stmt unit :=
  fun st =>
    (Ok tt,
     filter (fun f => negb (within p (path f))) st
     ++ [mkparquet p cols df]).

Section Main.

Variable code_eq : option text -> value -> tv.

(** The configured output directory. *)
Variable OUTPUT_DATA_DIR : string.

(** The engine evaluates a relation when an action asks for it, by a plan
    of its own: a row the joins of the fact table discard need not be
    converted.  So when the conversion of some row of the immigration
    relation raises, the source does not tell whether the run fails, nor
    with which rows it goes on: [evaluate], given the relation and the
    exception, is what the engine makes of it at the first action. *)
Variable evaluate : list sid.row -> exn -> result (list sid.row).

Definition out (name : string) : string :=
  String.append OUTPUT_DATA_DIR name.

(** [main], from the loaded immigration and demographics relations and the
    text of the label document. *)
Definition main (immigration_df : list sid.row)
  (us_demographics_df : list sud.row) (file_data : text) : stmt unit :=
  countries_df <~ call (get_i94_countries file_data) ;;
  ports_df <~ call (get_i94_ports file_data) ;;
  states_df <~ call (get_i94_states file_data) ;;
  travel_modes_df <~ call (get_i94_travel_modes file_data) ;;
  visa_categories_df <~ call (get_i94_visas file_data) ;;
  cleaned_immigration_df <~
    call (match clean_immigration_data immigration_df with
          | Ok rows => Ok rows
          | Raise e => evaluate immigration_df e
          end) ;;
  let cleaned_us_demographics_df :=
    clean_us_demographics_data us_demographics_df in
  let cleaned_ports_df := clean_ports_data ports_df in
  let cleaned_countries_df := clean_countries_data countries_df in
  let cleaned_states_df := clean_states_data states_df in
  let immigration_fact_table :=
    create_immigration_fact_table code_eq cleaned_immigration_df
      cleaned_countries_df cleaned_states_df cleaned_ports_df
      visa_categories_df travel_modes_df in
  let city_demographics_table :=
    create_city_demographics_dim_table cleaned_us_demographics_df
      cleaned_ports_df in
  if_ (count (immigration_fact immigration_fact_table) =? 0)%nat
      (expression
         (Exception "Invalid dataset. Immigrations fact table is empty.")) ;;;
  if_ (count (city_demographics city_demographics_table) =? 0)%nat
      (expression
         (Exception "Invalid dataset. City demographics dim table is empty.")) ;;;
  if_ (count (ports cleaned_ports_df) =? 0)%nat
      (expression (Exception "Invalid dataset. Port dim table is empty.")) ;;;
  if_ (count (countries cleaned_countries_df) =? 0)%nat
      (expression (Exception "Invalid dataset. Country dim table is empty.")) ;;;
  if_ (count (us_states cleaned_states_df) =? 0)%nat
      (expression (Exception "Invalid dataset. US State dim table is empty.")) ;;;
  if_ (count (visa_categories visa_categories_df) =? 0)%nat
      (expression
         (Exception "Invalid dataset. Visa Category dim table is empty.")) ;;;
  if_ (count (travel_modes travel_modes_df) =? 0)%nat
      (expression
         (Exception "Invalid dataset. Travel mode dim table is empty.")) ;;;
  write (immigration_fact immigration_fact_table)
        ["entry_year"; "entry_month"; "port_code"]%string
        (out "fact_immigrations.parquet") ;;;
  write (city_demographics city_demographics_table) ["state_code"%string]
        (out "dim_city_demographics.parquet") ;;;
  write (countries cleaned_countries_df) [] (out "dim_country.parquet") ;;;
  write (us_states cleaned_states_df) [] (out "dim_us_state.parquet") ;;;
  write (ports cleaned_ports_df) [] (out "dim_ports.parquet") ;;;
  write (travel_modes travel_modes_df) [] (out "dim_travel_mode.parquet") ;;;
  write (visa_categories visa_categories_df) []
        (out "dim_visa_category.parquet").

End Main.

(* ================================================================= *)
(** ** Notions used to state the properties *)

(** The text before the first [sep], all of [s] when there is none. *)
Fixpoint upto (sep : ascii) (s : text) : text :=
  match s with
  | [] => []
  | c :: s' => if Ascii.eqb c sep then [] else c :: upto sep s'
  end.

(** The text after the first [sep], empty when there is none. *)
Fixpoint after (sep : ascii) (s : text) : text :=
  match s with
  | [] => []
  | c :: s' => if Ascii.eqb c sep then s' else after sep s'
  end.

(** [sub in s] *)
Definition contains (sub s : text) : bool :=
  match find sub s with Some _ => true | None => false end.

(** A country name that starts with one of the three placeholder words. *)
Definition placeholder_prefix (name : text) : bool :=
  startswith (txt "No Country") name || startswith (txt "INVALID") name
  || startswith (txt "Collapsed") name.

Definition single_line (s : text) : bool :=
  forallb (fun c => negb (line_terminator c)) s.

(** A date of the calendar, within the years [date] supports. *)
Definition valid_date (d : date) : Prop :=
  1 <= year d <= 9999 /\ 1 <= month d <= 12
  /\ 1 <= day d <= _days_in_month (year d) (month d).

(** The day after [d] in the calendar. *)
Definition tomorrow (d : date) : date :=
  if day d <? _days_in_month (year d) (month d)
  then mkdate (year d) (month d) (day d + 1)
  else if month d <? 12 then mkdate (year d) (month d + 1) 1
       else mkdate (year d + 1) 1 1.

(** [r] is the date [d] days after [base]: a date of the calendar reached
    from [base] in [d] steps of one day, or, for a negative [d], from which
    [base] is reached in [-d] steps. *)
Definition days_after (base : date) (d : Z) (r : date) : Prop :=
  valid_date r
  /\ if 0 <=? d then r = Nat.iter (Z.to_nat d) tomorrow base
     else base = Nat.iter (Z.to_nat (- d)) tomorrow r.


(** A number of days that leads from 1960-01-01 to a date of the years 1
    to 9999. *)
Definition within_calendar (d : Z) : Prop :=
  0 < toordinal epoch + d <= _MAXORDINAL.




(** The birth year kept for [yr]: NULL, or for a number from 1900 to 2016
    the text [Double.toString] gives. *)
Definition valid_birth_year (yr : value) : value :=
  match yr with
  | VNum z =>
      if (1900 <=? z) && (z <=? 2016)
      then VStr (Double_toString z (txt "0")) else VNull
  | VFrac below _ decimals =>
      if (1900 <=? below) && (below <? 2016)
      then VStr (Double_toString below decimals) else VNull
  | _ => VNull
  end.


(** Immigration rows for the examples: an arrival of April 2016 at
    Atlanta, with the state of residence and the three columns the cleaner
    rewrites left open. *)
Definition arriving (i94addr arrdate depdate biryear : value) : sid.row :=
  sid.mk (VNum 6) (VNum 2016) (VNum 4) (VNum 692) (VStr (txt "ATL"))
         arrdate (VNum 1) i94addr depdate (VNum 37) (VNum 2)
         VNull (VStr (txt "M")) biryear (VStr (txt "10282016"))
         (VStr (txt "DL")) (VNum 92468461330) (VStr (txt "00758"))
         (VStr (txt "B2")) [VNum 692; VNum 1].

Definition arrival : value -> value -> value -> sid.row :=
  arriving (VStr (txt "GA")).

(** A comparison for the examples: a text cell is compared with the code
    as it is, a number with the code read as a decimal numeral. *)
Definition digit_value (c : ascii) : option Z :=
  let n := nat_of_ascii c in
  if ((48 <=? n) && (n <=? 57))%nat then Some (Z.of_nat (n - 48)) else None.

Fixpoint numeral_from (acc : Z) (s : text) : option Z :=
  match s with
  | [] => Some acc
  | c :: s' =>
      match digit_value c with
      | Some d => numeral_from (10 * acc + d) s'
      | None => None
      end
  end.

Definition numeral (s : text) : option Z :=
  match s with [] => None | _ :: _ => numeral_from 0 s end.

Definition example_eq (code : option text) (v : value) : tv :=
  match code, v with
  | Some c, VStr s => Some (text_eqb c s)
  | Some c, VNum z => option_map (Z.eqb z) (numeral c)
  | _, _ => None
  end.

(** The right side [b] a left join gives a row, [on] being the join
    condition at that row: a matching row of [book], or NULL when no row
    of [book] matches. *)
Definition matched {B} (b : option B) (on : B -> tv) (book : list B) : Prop :=
  match b with
  | Some r => In r book /\ holds (on r) = true
  | None => forall r, In r book -> holds (on r) = false
  end.

(** The cell [v] is resolved by the row [r] of a code-book: the code of
    [r] is not NULL and equals [v]. *)
Definition resolved_by {B} (eq : option text -> value -> tv)
  (code : B -> option text) (book : list B) (v : value) (r : B) : Prop :=
  In r book /\ code r <> None /\ holds (eq (code r) v) = true.

(** The cell [v] resolves in a code-book. *)
Definition resolves {B} (eq : option text -> value -> tv)
  (code : B -> option text) (book : list B) (v : value) : Prop :=
  exists r, resolved_by eq code book v r.

(** The code [c], not NULL, is the code of a row of [book]. *)
Definition present {B} (c : option text) (code : B -> option text)
  (book : list B) : Prop :=
  c <> None /\ exists r, In r book /\ code r = c.

(** The sum of the cells that are not NULL. *)
Definition total (cells : list (option Z)) : Z :=
  fold_right (fun c acc => match c with Some z => z + acc | None => acc end)
             0 cells.

(** The sum of one column over all rows of [df] for the city [c] of state
    [st], the race rows of that city. *)
Definition city_total (column : sud.row -> option Z) (c st : text)
  (df : list sud.row) : Z :=
  total (map column (group (Some c, Some st) df)).

(** The combination a row of the dimension stands for. *)
Definition combination (r : dim.row)
  : option text * option text * option text :=
  (cd.city (dim.demographics r), cd.state_code (dim.demographics r),
   dim.port_code r).

(** No two rows of the ports relation agree on port code, state code and
    city name up to letter case. *)
Definition ports_apart (ports_df : list sp.row) : Prop :=
  forall p q, In p ports_df -> In q ports_df ->
    sp.port_code p = sp.port_code q -> sp.state_code p = sp.state_code q ->
    lower (sp.city p) = lower (sp.city q) -> p = q.

(** A demographics row for the examples: one race of one city. *)
Definition census (city state_code race : text)
  (male female total_population veterans foreign_born : Z) : sud.row :=
  sud.mk (Some city) (Some (txt "Georgia")) (Some 4630123812935529267)
         (Some male) (Some female) (Some total_population) (Some veterans)
         (Some foreign_born) (Some 4612586738352862003) (Some state_code)
         (Some race) (Some 1).

(** [before] is where [sub] first occurs in [s]. *)
Definition first_occurrence (sub s before : text) : Prop :=
  (exists rest, s = before ++ sub ++ rest)
  /\ forall before' rest',
       s = before' ++ sub ++ rest' -> (length before <= length before')%nat.

(** [sub] occurs nowhere in [s]. *)
Definition absent (sub s : text) : Prop :=
  forall before rest, s <> before ++ sub ++ rest.

(** The entry a line of a block stands for: a line with exactly one [=]
    gives the pair of the texts before and after it, each stripped of the
    white space around it and then of the quotes around it; any other line
    gives nothing. *)
Definition entry (line : text) : list (text * text) :=
  if (count_occ ascii_dec line "="%char =? 1)%nat then
    [(strip_chars (txt "'") (strip (upto "="%char line)),
      strip_chars (txt "'") (strip (after "="%char line)))]
  else [].

(** The entries of a block, line after line. *)
Definition entries (block : text) : list (text * text) :=
  flat_map entry (split LF block).

(** A label document for the examples. *)
Definition label_document : text :=
  txt "/* I94PORT */ value I94PORT
   'ATL'	=	'ATLANTA, GA     '
   'a=b' = 'skipped'
;
I94MODE 1 = 'Air' ;".

(** A label document whose five blocks hold no entry. *)
Definition empty_blocks : text :=
  txt "I94RES ; I94PORT ; I94ADDR ; I94MODE ; I94VISA ;".

(** The paths of the outputs the storage holds. *)
Definition written_paths (st : storage) : list string := map path st.

(** No cell matches two rows of the code-book: whatever [v], at most one
    row of [book] has a code equal to it. *)
Definition single_match {B} (eq : option text -> value -> tv)
  (code : B -> option text) (book : list B) : Prop :=
  forall v,
    (length (filter (fun r => holds (eq (code r) v)) book) <= 1)%nat.

(** A text that neither begins nor ends with a character of the class
    [p]. *)
Definition clear_of (p : ascii -> bool) (s : text) : Prop :=
  match s with [] => True | c :: _ => p c = false end
  /\ match rev s with [] => True | c :: _ => p c = false end.

(** The quote character, as a class. *)
Definition isquote (c : ascii) : bool := existsb (Ascii.eqb c) (txt "'").

(** A word in which no [N] is followed by [A] or stands last: it cannot
    run into an inserted ["NA"]. *)
Fixpoint na_free (w : text) : bool :=
  match w with
  | [] => true
  | c :: w' =>
      (if Ascii.eqb c "N"%char
       then match w' with
            | [] => false
            | d :: _ => negb (Ascii.eqb d "A"%char)
            end
       else true)
      && na_free w'
  end.

(** The names of the five blocks [main] reads. *)
Definition block_names : list text :=
  [txt "I94RES"; txt "I94PORT"; txt "I94ADDR"; txt "I94MODE"; txt "I94VISA"].

(** A text that can stand between the quotes of an entry: no quote at
    either end, and no equals sign, semicolon or line feed. *)
Definition plain (s : text) : Prop :=
  clear_of isquote s
  /\ forall c, In c s -> c <> "="%char /\ c <> ";"%char /\ c <> LF.

(** An entry as a line of a block, and a block as a text. *)
Definition render_entry (p : text * text) : text :=
  txt "'" ++ fst p ++ txt "' = '" ++ snd p ++ txt "'".

Definition render_block (label_name : text) (pairs : list (text * text))
  : text :=
  label_name ++ LF :: flat_map (fun p => render_entry p ++ [LF]) pairs
  ++ txt ";".

(** A decimal digit. *)
Definition isdigit (c : ascii) : bool :=
  let n := nat_of_ascii c in ((48 <=? n) && (n <=? 57))%nat.

(* ################################################################# *)
(** * Properties *)

(* ================================================================= *)
(** ** Text *)

Lemma lstrip_by_spec (p : ascii -> bool) (s : text) :
  exists lead,
    s = lead ++ lstrip_by p s /\ forallb p lead = true
    /\ match lstrip_by p s with [] => True | c :: _ => p c = false end.
Proof.
  induction s as [|c s (lead & E & Hl & Hh)]; [now exists []|].
  cbn [lstrip_by]. destruct (p c) eqn:Ec.
  - exists (c :: lead). cbn [app forallb]. rewrite Ec, Hl, <- E. auto.
  - now exists [].
Qed.

(** What [strip] leaves: the text without the longest run of characters
    to strip at its start and at its end. *)
Lemma strip_by_spec (p : ascii -> bool) (s : text) :
  exists lead trail,
    s = lead ++ strip_by p s ++ trail
    /\ forallb p lead = true /\ forallb p trail = true
    /\ match strip_by p s with [] => True | c :: _ => p c = false end
    /\ match rev (strip_by p s) with [] => True | c :: _ => p c = false end.
Proof.
  unfold strip_by, rstrip_by.
  destruct (lstrip_by_spec p s) as (lead & E & Hl & Hh).
  destruct (lstrip_by_spec p (rev (lstrip_by p s))) as (tl & E' & Ht & Hr).
  set (t := lstrip_by p s) in *.
  set (u := lstrip_by p (rev t)) in *.
  assert (Et : t = rev u ++ rev tl).
  { rewrite <- rev_app_distr, <- E'. now rewrite rev_involutive. }
  exists lead, (rev tl). rewrite rev_involutive. repeat split.
  - now rewrite <- Et.
  - exact Hl.
  - rewrite forallb_forall in *. intros c Hc. apply Ht. now apply in_rev.
  - destruct (rev u) as [|c r] eqn:Eu; [exact I|].
    rewrite Et in Hh. exact Hh.
  - exact Hr.
Qed.

(* ================================================================= *)
(** ** The states cleaner *)

Lemma sql_neq_true (a : option text) (b : text) :
  holds (sql_neq a (Some b)) = true <-> exists c, a = Some c /\ c <> b.
Proof.
  destruct a as [c|]; simpl.
  - unfold text_eqb. destruct (text_eq_dec c b) as [e|n]; simpl.
    + split; [discriminate|]. intros (c' & [= <-] & ne). contradiction.
    + split; [|reflexivity]. intros _. exists c. auto.
  - split; [discriminate|]. intros (c & e & _). discriminate.
Qed.

(** C10: the cleaned states relation holds no row with a NULL state code.
    [state_code != "99"] is UNKNOWN on NULL, so the filter drops the row;
    what it keeps is exactly the rows whose code is present and is not the
    sentinel. *)
Theorem clean_states_data_no_null_code (states_df : list sus.row) :
  holds (sql_neq None (Some (txt "99"))) = false
  /\ Forall (fun r => sus.state_code r <> None
                      /\ sus.state_code r <> Some (txt "99"))
            (clean_states_data states_df)
  /\ (forall r, In r (clean_states_data states_df)
                <-> In r states_df
                    /\ exists c, sus.state_code r = Some c /\ c <> txt "99").
Proof.
  split; [reflexivity|]. split.
  - apply Forall_forall. intros r Hr.
    apply filter_In in Hr as [_ Hr]. apply sql_neq_true in Hr.
    destruct Hr as (c & -> & ne). split; [discriminate|].
    intros [= e]. contradiction.
  - intros r. unfold clean_states_data. rewrite filter_In.
    rewrite sql_neq_true. reflexivity.
Qed.

Lemma clean_states_data_no_null_code_witness :
  clean_states_data
    [sus.mk None (Some (txt "unknown")); sus.mk (Some (txt "99")) None;
     sus.mk (Some (txt "GA")) (Some (txt "GEORGIA"))]
  = [sus.mk (Some (txt "GA")) (Some (txt "GEORGIA"))]
  /\ Forall (fun r => sus.state_code r <> None
                      /\ sus.state_code r <> Some (txt "99"))
            (clean_states_data
               [sus.mk None (Some (txt "unknown"));
                sus.mk (Some (txt "99")) None;
                sus.mk (Some (txt "GA")) (Some (txt "GEORGIA"))]).
Proof.
  split; [reflexivity|].
  apply (clean_states_data_no_null_code
           [sus.mk None (Some (txt "unknown")); sus.mk (Some (txt "99")) None;
            sus.mk (Some (txt "GA")) (Some (txt "GEORGIA"))]).
Defined.

(* ================================================================= *)
(** ** The countries cleaner *)

Lemma find_None_startswith (sub s : text) :
  find sub s = None -> startswith sub s = false.
Proof.
  destruct s; simpl; destruct (startswith sub _); congruence.
Qed.

Lemma find_None_tail (sub : text) (c : ascii) (s : text) :
  find sub (c :: s) = None -> find sub s = None.
Proof.
  simpl. destruct (startswith sub (c :: s)); [discriminate|].
  destruct (find sub s); simpl; congruence.
Qed.

Lemma matches_here_alternatives (at_start : bool) (s : text) :
  matches_here at_start s
  = at_start && startswith (txt "No Country") s
    || startswith (txt "INVALID") s || startswith (txt "Collapsed") s.
Proof.
  unfold matches_here, alternatives.
  cbn [existsb fst snd implb].
  destruct at_start; cbn [implb andb];
    destruct (startswith (txt "No Country") s),
             (startswith (txt "INVALID") s),
             (startswith (txt "Collapsed") s); reflexivity.
Qed.

Lemma replace_all_cons (at_start in_match : bool) (c : ascii) (s : text) :
  replace_all at_start in_match (c :: s)
  = if in_match then
      if line_terminator c then c :: replace_all false false s
      else replace_all false true s
    else if matches_here at_start (c :: s) then
      txt "NA" ++ replace_all false true s
    else c :: replace_all false false s.
Proof. reflexivity. Qed.

(** Inside a match, the rest of a line is consumed. *)
Lemma replace_all_in_match (s : text) :
  single_line s = true -> replace_all false true s = [].
Proof.
  induction s as [|c s IH]; [reflexivity|].
  cbn [single_line forallb]. intros H.
  apply andb_true_iff in H as [Hc Hs].
  rewrite replace_all_cons. apply negb_true_iff in Hc. rewrite Hc.
  apply IH, Hs.
Qed.

(** Past the start, a string without the two unanchored words is kept. *)
Lemma replace_all_unchanged (s : text) :
  contains (txt "INVALID") s = false ->
  contains (txt "Collapsed") s = false ->
  replace_all false false s = s.
Proof.
  unfold contains.
  induction s as [|c s IH]; [reflexivity|].
  intros Hi Hc.
  destruct (find (txt "INVALID") (c :: s)) eqn:Ei; [discriminate|].
  destruct (find (txt "Collapsed") (c :: s)) eqn:Ec; [discriminate|].
  rewrite replace_all_cons, matches_here_alternatives.
  rewrite (find_None_startswith _ _ Ei), (find_None_startswith _ _ Ec).
  cbn [andb orb]. f_equal. apply IH.
  - now rewrite (find_None_tail _ _ _ Ei).
  - now rewrite (find_None_tail _ _ _ Ec).
Qed.

Lemma regexp_replace_placeholder (name : text) :
  placeholder_prefix name = true -> single_line name = true ->
  replace_all true false name = txt "NA".
Proof.
  intros Hp Hl. destruct name as [|c s]; [discriminate|].
  rewrite replace_all_cons, matches_here_alternatives.
  unfold placeholder_prefix in Hp. cbn [andb]. rewrite Hp.
  cbn [single_line forallb] in Hl. apply andb_true_iff in Hl as [_ Hl].
  rewrite (replace_all_in_match _ Hl). reflexivity.
Qed.

Lemma regexp_replace_other (name : text) :
  startswith (txt "No Country") name = false ->
  contains (txt "INVALID") name = false ->
  contains (txt "Collapsed") name = false ->
  replace_all true false name = name.
Proof.
  intros Hn Hi Hc. destruct name as [|c s]; [reflexivity|].
  rewrite replace_all_cons, matches_here_alternatives, Hn.
  pose proof Hi as Hi'. pose proof Hc as Hc'. unfold contains in Hi', Hc'.
  destruct (find (txt "INVALID") (c :: s)) eqn:Ei; [discriminate|].
  destruct (find (txt "Collapsed") (c :: s)) eqn:Ec; [discriminate|].
  rewrite (find_None_startswith _ _ Ei), (find_None_startswith _ _ Ec).
  cbn [andb orb]. f_equal. apply replace_all_unchanged; unfold contains.
  - now rewrite (find_None_tail _ _ _ Ei).
  - now rewrite (find_None_tail _ _ _ Ec).
Qed.

(** C8, as stated, fails: [INVALID] and [Collapsed] are matched anywhere in
    the name, not only at its start.  The name ["X INVALID"] starts with no
    placeholder word, yet it is rewritten, and not to ["NA"]. *)
Lemma clean_countries_data_rewrites_inner_word :
  placeholder_prefix (txt "X INVALID") = false
  /\ clean_countries_data [sc.mk (Some (txt "7")) (Some (txt "X INVALID"))]
     = [sc.mk (Some (txt "7")) (Some (txt "X NA"))]
  /\ txt "X NA" <> txt "X INVALID" /\ txt "X NA" <> txt "NA".
Proof. repeat split; discriminate. Qed.

(** C8, amended: a country name on one line that starts with [No Country],
    [INVALID] or [Collapsed] becomes exactly ["NA"]; a name that neither
    starts with [No Country] nor holds [INVALID] or [Collapsed] anywhere is
    kept as it is, and so is a NULL name; no row is removed and the country
    codes are untouched. *)
Theorem clean_countries_data_spec (countries_df : list sc.row) :
  length (clean_countries_data countries_df) = length countries_df
  /\ map sc.country_code (clean_countries_data countries_df)
     = map sc.country_code countries_df
  /\ Forall2
       (fun r r' =>
          match sc.country_name r with
          | None => sc.country_name r' = None
          | Some name =>
              (placeholder_prefix name = true -> single_line name = true ->
               sc.country_name r' = Some (txt "NA"))
              /\ (startswith (txt "No Country") name = false ->
                  contains (txt "INVALID") name = false ->
                  contains (txt "Collapsed") name = false ->
                  sc.country_name r' = Some name)
          end)
       countries_df (clean_countries_data countries_df).
Proof.
  unfold clean_countries_data. split; [apply length_map|]. split.
  - rewrite map_map. reflexivity.
  - induction countries_df as [|r l IH]; constructor; [|exact IH].
    unfold regexp_replace. cbn beta iota delta [sc.country_name].
    destruct r as [code [name|]]; cbn [option_map]; [|reflexivity].
    split.
    + intros Hp Hl. simpl. now rewrite regexp_replace_placeholder.
    + intros Hn Hi Hc. simpl. now rewrite regexp_replace_other.
Qed.

Lemma clean_countries_data_spec_witness :
  Forall2
    (fun r r' =>
       match sc.country_name r with
       | None => sc.country_name r' = None
       | Some name =>
           (placeholder_prefix name = true -> single_line name = true ->
            sc.country_name r' = Some (txt "NA"))
           /\ (startswith (txt "No Country") name = false ->
               contains (txt "INVALID") name = false ->
               contains (txt "Collapsed") name = false ->
               sc.country_name r' = Some name)
       end)
    [sc.mk (Some (txt "0")) (Some (txt "INVALID: STATELESS"));
     sc.mk (Some (txt "236")) (Some (txt "AFGHANISTAN"))]
    [sc.mk (Some (txt "0")) (Some (txt "NA"));
     sc.mk (Some (txt "236")) (Some (txt "AFGHANISTAN"))]
  /\ placeholder_prefix (txt "INVALID: STATELESS") = true
  /\ single_line (txt "INVALID: STATELESS") = true
  /\ contains (txt "INVALID") (txt "AFGHANISTAN") = false.
Proof.
  split; [|repeat split].
  exact (proj2 (proj2 (clean_countries_data_spec
    [sc.mk (Some (txt "0")) (Some (txt "INVALID: STATELESS"));
     sc.mk (Some (txt "236")) (Some (txt "AFGHANISTAN"))]))).
Defined.

(* ================================================================= *)
(** ** The ports cleaner *)

Lemma split_unfold (sep : ascii) (s : text) :
  split sep s
  = upto sep s
    :: (if existsb (Ascii.eqb sep) s then split sep (after sep s) else []).
Proof.
  induction s as [|c s IH]; [reflexivity|].
  cbn [split upto after existsb].
  rewrite (Ascii.eqb_sym sep c).
  destruct (Ascii.eqb c sep); cbn [orb]; [reflexivity|].
  rewrite IH. reflexivity.
Qed.

Lemma existsb_eqb_In (sep : ascii) (s : text) :
  existsb (Ascii.eqb sep) s = true <-> In sep s.
Proof.
  rewrite existsb_exists. split.
  - intros (c & Hc & e). apply Ascii.eqb_eq in e. now subst.
  - intros H. exists sep. split; [exact H | apply Ascii.eqb_refl].
Qed.

Lemma split_first (sep : ascii) (s : text) :
  nth 0 (split sep s) [] = upto sep s.
Proof. rewrite split_unfold. reflexivity. Qed.

Lemma split_several (sep : ascii) (s : text) :
  (1 <? length (split sep s))%nat = existsb (Ascii.eqb sep) s.
Proof.
  rewrite split_unfold.
  destruct (existsb (Ascii.eqb sep) s); [|reflexivity].
  rewrite (split_unfold sep (after sep s)). reflexivity.
Qed.

Lemma split_second (sep : ascii) (s : text) :
  In sep s -> nth 1 (split sep s) [] = upto sep (after sep s).
Proof.
  intros H. apply existsb_eqb_In in H.
  rewrite split_unfold, H. cbn [nth]. apply split_first.
Qed.

Lemma In_nonempty (c : ascii) (s : text) : In c s -> nonempty s = true.
Proof. destruct s; [contradiction | reflexivity]. Qed.

(** The columns of a port row that survives [dropna]. *)
Lemma ports_row_kept (code name : option text) :
  ports_has_null (sp.mk code (get_city_name name) (get_state_code name))
  = false
  <-> exists c n,
        code = Some c /\ name = Some n /\ In ","%char n
        /\ get_city_name name = Some (strip (upto ","%char n))
        /\ get_state_code name
           = Some (strip (upto ","%char (after ","%char n))).
Proof.
  unfold ports_has_null. cbn [sp.port_code sp.city sp.state_code].
  rewrite negb_false_iff. split.
  - intros H. apply andb_true_iff in H as [H Hs].
    apply andb_true_iff in H as [Hc Hn].
    destruct code as [c|]; [|discriminate].
    destruct name as [n|]; [|discriminate].
    cbn [get_city_name get_state_code] in *.
    destruct (nonempty n); [|discriminate].
    cbn [andb] in *. rewrite split_several in *.
    destruct (existsb (Ascii.eqb ","%char) n) eqn:E; [|discriminate].
    apply existsb_eqb_In in E.
    exists c, n. rewrite split_first, (split_second _ _ E). auto.
  - intros (c & n & -> & -> & Hin & -> & ->). reflexivity.
Qed.

(** C7, as stated, fails: the state code is the second part of the split,
    which ends at the second comma, not the whole text after the first
    comma.  For ['PACIFIC, HWY. STATION, CA'] that text, trimmed, is
    ["HWY. STATION, CA"], and the cleaner gives ["HWY. STATION"]. *)
Lemma clean_ports_data_stops_at_second_comma :
  txt "PACIFIC, HWY. STATION, CA"
  = txt "PACIFIC" ++ ","%char :: txt " HWY. STATION, CA"
  /\ ~ In ","%char (txt "PACIFIC")
  /\ strip (txt " HWY. STATION, CA") = txt "HWY. STATION, CA"
  /\ clean_ports_data
       [i94port.mk (Some (txt "BLT")) (Some (txt "PACIFIC, HWY. STATION, CA"))]
     = [sp.mk (Some (txt "BLT")) (Some (txt "PACIFIC"))
              (Some (txt "HWY. STATION"))]
  /\ txt "HWY. STATION" <> txt "HWY. STATION, CA".
Proof.
  repeat split; try discriminate.
  cbn. intros H. repeat (destruct H as [H|H]; [discriminate|]). exact H.
Qed.

(** C7, amended: the ports cleaner yields, without duplicates, exactly the
    rows (port code, city, state code) for the code-book rows whose
    display name holds a comma (and whose code and name are not NULL),
    where city is the text before the first comma, trimmed, and state code
    is the text between the first comma and the second one (or the end of
    the name when there is no second comma), trimmed; the display-name
    column is gone from the schema. *)
Theorem clean_ports_data_spec (ports_df : list i94port.row) :
  NoDup (clean_ports_data ports_df)
  /\ forall r,
       In r (clean_ports_data ports_df)
       <-> exists code name,
             In (i94port.mk (Some code) (Some name)) ports_df
             /\ In ","%char name
             /\ r = sp.mk (Some code)
                          (Some (strip (upto ","%char name)))
                          (Some (strip (upto ","%char (after ","%char name)))).
Proof.
  unfold clean_ports_data, dropDuplicates. split; [apply NoDup_nodup|].
  intros r. rewrite nodup_In, filter_In, in_map_iff, negb_true_iff. split.
  - intros [(raw & <- & Hraw) Hk]. apply ports_row_kept in Hk.
    destruct Hk as (c & n & Hc & Hn & Hin & -> & ->).
    exists c, n. destruct raw as [code name].
    cbn [i94port.port_code i94port.port_name] in *. subst. auto.
  - intros (c & n & Hraw & Hin & ->).
    assert (K : ports_has_null
                  (sp.mk (Some c) (get_city_name (Some n))
                         (get_state_code (Some n))) = false).
    { apply ports_row_kept. exists c, n.
      cbn [get_city_name get_state_code].
      rewrite (In_nonempty _ _ Hin), split_several.
      rewrite (proj2 (existsb_eqb_In _ _) Hin).
      rewrite split_first, (split_second _ _ Hin). auto. }
    apply ports_row_kept in K as K'.
    destruct K' as (c' & n' & [= <-] & [= <-] & _ & Ec & Es).
    rewrite <- Ec, <- Es. split; [|exact K].
    exists (i94port.mk (Some c) (Some n)). split; [reflexivity | exact Hraw].
Qed.

Lemma clean_ports_data_spec_witness :
  In (sp.mk (Some (txt "ATL")) (Some (txt "ATLANTA")) (Some (txt "GA")))
     (clean_ports_data
        [i94port.mk (Some (txt "ATL")) (Some (txt "ATLANTA, GA"));
         i94port.mk (Some (txt "XXX")) (Some (txt "NOT REPORTED/UNKNOWN"))]).
Proof.
  apply (proj2 (clean_ports_data_spec
    [i94port.mk (Some (txt "ATL")) (Some (txt "ATLANTA, GA"));
     i94port.mk (Some (txt "XXX")) (Some (txt "NOT REPORTED/UNKNOWN"))])).
  exists (txt "ATL"), (txt "ATLANTA, GA").
  split; [left; reflexivity|]. split; [|reflexivity].
  cbn. tauto.
Defined.

(* ================================================================= *)
(** ** The calendar *)

Lemma month_cases (m : Z) :
  1 <= m <= 12 ->
  m = 1 \/ m = 2 \/ m = 3 \/ m = 4 \/ m = 5 \/ m = 6 \/ m = 7 \/ m = 8
  \/ m = 9 \/ m = 10 \/ m = 11 \/ m = 12.
Proof. lia. Qed.

(** Evaluate the table lookups and the tests on a known month. *)
Ltac tables :=
  repeat match goal with
    | |- context [nth ?k ?l ?d] =>
        let v := eval vm_compute in (nth k l d) in
        change (nth k l d) with v
    | |- context [?a - 1 =? 2] =>
        let v := eval vm_compute in (a - 1 =? 2) in
        change (a - 1 =? 2) with v
    | |- context [?a =? 2] =>
        let v := eval vm_compute in (a =? 2) in
        change (a =? 2) with v
    | |- context [2 <? ?a] =>
        let v := eval vm_compute in (2 <? a) in
        change (2 <? a) with v
    end;
  cbn [andb].

Ltac leap_cases :=
  unfold _is_leap;
  repeat match goal with
    | |- context [?a =? ?b] => destruct (Z.eqb_spec a b)
    end;
  cbn [andb orb negb].

(** The month and the day [_ord2ymd] finds for day [n] of a year, days
    counted from 0. *)
Lemma month_and_day (y : Z) (leapyear : bool) (n : Z) :
  0 <= n < (if leapyear then 366 else 365) ->
  let month := Z.shiftr (n + 50) 5 in
  let preceding :=
    nth (Z.to_nat month) _DAYS_BEFORE_MONTH 0
    + (if (2 <? month) && leapyear then 1 else 0) in
  exists m d,
    (if n <? preceding then
       mkdate y (month - 1)
              (n - (preceding
                    - (nth (Z.to_nat (month - 1)) _DAYS_IN_MONTH 0
                       + (if (month - 1 =? 2) && leapyear then 1 else 0)))
               + 1)
     else mkdate y month (n - preceding + 1)) = mkdate y m d
    /\ 1 <= m <= 12
    /\ 1 <= d <= (if (m =? 2) && leapyear then 29
                  else nth (Z.to_nat m) _DAYS_IN_MONTH 0)
    /\ nth (Z.to_nat m) _DAYS_BEFORE_MONTH 0
       + (if (2 <? m) && leapyear then 1 else 0) + d = n + 1.
Proof.
  intros Hn month preceding. subst preceding.
  assert (Hb : 32 * month <= n + 50 < 32 * month + 32).
  { subst month. rewrite Z.shiftr_div_pow2 by lia. change (2 ^ 5) with 32.
    pose proof (Z.div_mod (n + 50) 32 ltac:(lia)).
    pose proof (Z.mod_pos_bound (n + 50) 32 ltac:(lia)). lia. }
  assert (Hm : 1 <= month <= 12) by (destruct leapyear; lia).
  clearbody month.
  destruct (month_cases Hm) as [E|[E|[E|[E|[E|[E|[E|[E|[E|[E|[E|E]]]]]]]]]]];
    subst month; destruct leapyear; tables;
    match goal with
    | |- context [?a <? ?b] => destruct (Z.ltb_spec a b)
    end;
    eexists _, _; (split; [reflexivity|]); tables; lia.
Qed.

(** [_ord2ymd] is the inverse of the day numbering: from day number [n] it
    gives a date of the calendar, the one whose day number is [n]. *)
Lemma _ord2ymd_spec (n : Z) :
  1 <= n <= _MAXORDINAL ->
  valid_date (_ord2ymd n) /\ toordinal (_ord2ymd n) = n.
Proof.
  unfold _MAXORDINAL. intros Hn. unfold _ord2ymd, _DI400Y, _DI100Y, _DI4Y.
  pose proof (Z.div_mod (n - 1) 146097 ltac:(lia)) as E1.
  pose proof (Z.mod_pos_bound (n - 1) 146097 ltac:(lia)) as B1.
  set (n400 := (n - 1) / 146097) in *.
  set (r1 := (n - 1) mod 146097) in *.
  pose proof (Z.div_mod r1 36524 ltac:(lia)) as E2.
  pose proof (Z.mod_pos_bound r1 36524 ltac:(lia)) as B2.
  set (n100 := r1 / 36524) in *. set (r2 := r1 mod 36524) in *.
  pose proof (Z.div_mod r2 1461 ltac:(lia)) as E3.
  pose proof (Z.mod_pos_bound r2 1461 ltac:(lia)) as B3.
  set (n4 := r2 / 1461) in *. set (r3 := r2 mod 1461) in *.
  pose proof (Z.div_mod r3 365 ltac:(lia)) as E4.
  pose proof (Z.mod_pos_bound r3 365 ltac:(lia)) as B4.
  set (n1 := r3 / 365) in *. set (r4 := r3 mod 365) in *.
  clearbody n400 r1 n100 r2 n4 r3 n1 r4.
  assert (R : 0 <= n400 <= 24 /\ 0 <= n100 <= 4 /\ 0 <= n4 <= 24
              /\ 0 <= n1 <= 4) by lia.
  set (y := n400 * 400 + 1 + (n100 * 100 + n4 * 4 + n1)).
  assert (Ey : y = 400 * n400 + 100 * n100 + 4 * n4 + n1 + 1)
    by (subst y; lia).
  clearbody y.
  destruct ((n1 =? 4) || (n100 =? 4)) eqn:Last.
  - (* the last day of a leap year *)
    assert (L : _is_leap (y - 1) = true).
    { apply orb_true_iff in Last. revert Last. leap_cases; intros Last.
      all: try reflexivity. all: exfalso.
      all: destruct Last as [Last|Last]; try discriminate.
      all: Z.div_mod_to_equations; lia. }
    unfold valid_date, toordinal, _ymd2ord, _days_in_month,
      _days_before_month, _days_before_year.
    cbn [year month day]. rewrite L. tables.
    apply orb_true_iff in Last.
    destruct Last as [Last|Last]; apply Z.eqb_eq in Last.
    all: split; [lia|]. all: Z.div_mod_to_equations; lia.
  - apply orb_false_iff in Last as [L1 L100].
    apply Z.eqb_neq in L1, L100.
    set (leapyear := (n1 =? 3) && (negb (n4 =? 24) || (n100 =? 3))).
    assert (L : _is_leap y = leapyear).
    { subst leapyear. leap_cases. all: try reflexivity. all: exfalso.
      all: Z.div_mod_to_equations; lia. }
    assert (Hr : 0 <= r4 < (if leapyear then 366 else 365))
      by (destruct leapyear; lia).
    destruct (month_and_day y leapyear Hr) as (m & d & E & Hm & Hd & Hs).
    cbv zeta in E. rewrite E.
    unfold valid_date, toordinal, _ymd2ord, _days_in_month,
      _days_before_month, _days_before_year.
    cbn [year month day]. rewrite L. split; [lia|].
    rewrite <- Z.add_assoc, Hs. Z.div_mod_to_equations; lia.
Qed.

Lemma _days_in_month_le (y m : Z) : 1 <= m <= 12 -> _days_in_month y m <= 31.
Proof.
  intros Hm. unfold _days_in_month.
  destruct (month_cases Hm) as [E|[E|[E|[E|[E|[E|[E|[E|[E|[E|[E|E]]]]]]]]]]];
    subst m; tables; destruct (_is_leap y); cbn; lia.
Qed.

Lemma digit_inj (a b : Z) :
  0 <= a <= 9 -> 0 <= b <= 9 -> digit a = digit b -> a = b.
Proof.
  unfold digit. intros Ha Hb E. apply (f_equal nat_of_ascii) in E.
  rewrite !nat_ascii_embedding in E by lia. lia.
Qed.

(** Two dates of the calendar with the same ISO text are the same date. *)
Lemma isoformat_inj (d1 d2 : date) :
  valid_date d1 -> valid_date d2 -> isoformat d1 = isoformat d2 -> d1 = d2.
Proof.
  intros (Hy1 & Hm1 & Hd1) (Hy2 & Hm2 & Hd2) E.
  pose proof (_days_in_month_le (year d1) Hm1).
  pose proof (_days_in_month_le (year d2) Hm2).
  destruct d1 as [y1 m1 a1], d2 as [y2 m2 a2]. cbn [year month day] in *.
  unfold isoformat in E. cbn [year month day] in E.
  injection E as E1 E2 E3 E4 E5 E6 E7 E8.
  apply digit_inj in E1, E2, E3, E4, E5, E6, E7, E8.
  all: try (Z.div_mod_to_equations; lia).
  f_equal; Z.div_mod_to_equations; lia.
Qed.

Lemma _days_before_year_succ (y : Z) :
  _days_before_year (y + 1)
  = _days_before_year y + (if _is_leap y then 366 else 365).
Proof.
  unfold _days_before_year. replace (y + 1 - 1) with (y - 1 + 1) by lia.
  leap_cases; Z.div_mod_to_equations; lia.
Qed.

Lemma _days_before_month_succ (y m : Z) :
  1 <= m < 12 ->
  _days_before_month y (m + 1) = _days_before_month y m + _days_in_month y m.
Proof.
  intros Hm. assert (Hm' : 1 <= m <= 12) by lia.
  unfold _days_before_month, _days_in_month.
  destruct (month_cases Hm') as [E|[E|[E|[E|[E|[E|[E|[E|[E|[E|[E|E]]]]]]]]]]];
    subst m; destruct (_is_leap y); try reflexivity; lia.
Qed.

Lemma _days_in_month_december (y : Z) : _days_in_month y 12 = 31.
Proof. unfold _days_in_month. destruct (_is_leap y); reflexivity. Qed.

Lemma _days_before_month_december (y : Z) :
  _days_before_month y 12 = if _is_leap y then 335 else 334.
Proof. unfold _days_before_month. destruct (_is_leap y); reflexivity. Qed.

Lemma _days_before_month_january (y : Z) : _days_before_month y 1 = 0.
Proof. unfold _days_before_month. destruct (_is_leap y); reflexivity. Qed.

(** The day number grows by one from a day to the next. *)
Lemma toordinal_tomorrow (d : date) :
  valid_date d -> toordinal (tomorrow d) = toordinal d + 1.
Proof.
  intros (Hy & Hm & Hd). destruct d as [y m a]. cbn [year month day] in *.
  unfold tomorrow, toordinal, _ymd2ord. cbn [year month day].
  destruct (Z.ltb_spec a (_days_in_month y m)); cbn [year month day];
    [lia|].
  destruct (Z.ltb_spec m 12); cbn [year month day].
  - rewrite _days_before_month_succ by lia. lia.
  - assert (m = 12) by lia. subst m.
    rewrite _days_in_month_december in *.
    rewrite _days_before_year_succ, _days_before_month_december,
      _days_before_month_january.
    destruct (_is_leap y); lia.
Qed.

Lemma valid_date_tomorrow (d : date) :
  valid_date d -> year d < 9999 \/ month d < 12 \/ day d < 31 ->
  valid_date (tomorrow d).
Proof.
  intros (Hy & Hm & Hd) Hlast. destruct d as [y m a].
  cbn [year month day] in *. unfold tomorrow, valid_date.
  cbn [year month day].
  destruct (Z.ltb_spec a (_days_in_month y m)); cbn [year month day];
    [lia|].
  destruct (Z.ltb_spec m 12); cbn [year month day].
  - assert (Hm' : 1 <= m <= 12) by lia.
    split; [lia|]. split; [lia|]. unfold _days_in_month.
    destruct (month_cases Hm') as [E|[E|[E|[E|[E|[E|[E|[E|[E|[E|[E|E]]]]]]]]]]];
      subst m; destruct (_is_leap y); vm_compute; intuition discriminate.
  - assert (m = 12) by lia. subst m.
    rewrite _days_in_month_december in *.
    split; [lia|]. split; [lia|]. unfold _days_in_month.
    destruct (_is_leap (y + 1)); vm_compute; intuition discriminate.
Qed.

Lemma month_table (y m : Z) :
  1 <= m <= 12 ->
  0 <= _days_before_month y m
  /\ _days_before_month y m + _days_in_month y m
     <= (if _is_leap y then 366 else 365).
Proof.
  intros Hm. unfold _days_before_month, _days_in_month.
  destruct (month_cases Hm) as [E|[E|[E|[E|[E|[E|[E|[E|[E|[E|[E|E]]]]]]]]]]];
    subst m; destruct (_is_leap y); split; vm_compute; discriminate.
Qed.

Lemma _days_before_month_lt (y m1 m2 : Z) :
  1 <= m1 -> m1 < m2 -> m2 <= 12 ->
  _days_before_month y m1 + _days_in_month y m1 <= _days_before_month y m2.
Proof.
  intros H1 H H2.
  assert (Hm1 : 1 <= m1 <= 12) by lia. assert (Hm2 : 1 <= m2 <= 12) by lia.
  unfold _days_before_month, _days_in_month.
  destruct (month_cases Hm1)
    as [F|[F|[F|[F|[F|[F|[F|[F|[F|[F|[F|F]]]]]]]]]]];
  destruct (month_cases Hm2)
    as [G|[G|[G|[G|[G|[G|[G|[G|[G|[G|[G|G]]]]]]]]]]];
  subst m1 m2; try lia; destruct (_is_leap y); vm_compute; discriminate.
Qed.

Lemma toordinal_bounds (d : date) :
  valid_date d ->
  _days_before_year (year d) < toordinal d <= _days_before_year (year d + 1).
Proof.
  intros (Hy & Hm & Hd). destruct d as [y m a]. cbn [year month day] in *.
  unfold toordinal, _ymd2ord. cbn [year month day].
  rewrite _days_before_year_succ. pose proof (month_table y Hm). lia.
Qed.

Lemma _days_before_year_le (y1 y2 : Z) :
  y1 <= y2 -> _days_before_year y1 <= _days_before_year y2.
Proof.
  unfold _days_before_year. intros H. Z.div_mod_to_equations. lia.
Qed.

(** Dates of the calendar with the same day number are the same date. *)
Lemma toordinal_inj (d1 d2 : date) :
  valid_date d1 -> valid_date d2 -> toordinal d1 = toordinal d2 -> d1 = d2.
Proof.
  intros V1 V2 E.
  pose proof (toordinal_bounds V1) as B1.
  pose proof (toordinal_bounds V2) as B2.
  assert (Ey : year d1 = year d2).
  { destruct (Z.lt_trichotomy (year d1) (year d2)) as [L|[L|L]]; [|exact L|].
    - pose proof (@_days_before_year_le (year d1 + 1) (year d2)). lia.
    - pose proof (@_days_before_year_le (year d2 + 1) (year d1)). lia. }
  destruct V1 as (Hy1 & Hm1 & Hd1), V2 as (Hy2 & Hm2 & Hd2).
  destruct d1 as [y1 m1 a1], d2 as [y2 m2 a2]. cbn [year month day] in *.
  subst y2. unfold toordinal, _ymd2ord in E. cbn [year month day] in E.
  assert (Em : m1 = m2).
  { destruct (Z.lt_trichotomy m1 m2) as [L|[L|L]]; [|exact L|].
    - pose proof (@_days_before_month_lt y1 m1 m2). lia.
    - pose proof (@_days_before_month_lt y1 m2 m1). lia. }
  subst m2. f_equal. lia.
Qed.

(** [_ord2ymd] steps through the calendar day by day. *)
Lemma _ord2ymd_succ (n : Z) :
  1 <= n < _MAXORDINAL -> _ord2ymd (n + 1) = tomorrow (_ord2ymd n).
Proof.
  intros Hn.
  destruct (@_ord2ymd_spec n) as [V O]; [lia|].
  destruct (@_ord2ymd_spec (n + 1)) as [V' O']; [lia|].
  apply toordinal_inj; [exact V'| |].
  - apply valid_date_tomorrow; [exact V|].
    destruct V as (Hy & Hm & Hd).
    pose proof (_days_in_month_le (year (_ord2ymd n)) Hm).
    destruct (Z.eq_dec (year (_ord2ymd n)) 9999) as [Ey|]; [|lia].
    destruct (Z.eq_dec (month (_ord2ymd n)) 12) as [Em|]; [|lia].
    destruct (Z.eq_dec (day (_ord2ymd n)) 31) as [Ed|]; [|lia].
    exfalso. revert O. unfold toordinal. rewrite Ey, Em, Ed.
    unfold _MAXORDINAL in Hn. vm_compute. lia.
  - rewrite toordinal_tomorrow, O', O; [reflexivity | exact V].
Qed.

Lemma _ord2ymd_iter (k : nat) (n : Z) :
  1 <= n -> n + Z.of_nat k <= _MAXORDINAL ->
  _ord2ymd (n + Z.of_nat k) = Nat.iter k tomorrow (_ord2ymd n).
Proof.
  induction k as [|k IH]; intros H1 H2.
  - change (Z.of_nat 0) with 0. now rewrite Z.add_0_r.
  - rewrite Nat.iter_succ, <- IH by lia.
    replace (n + Z.of_nat (S k)) with (n + Z.of_nat k + 1) by lia.
    apply _ord2ymd_succ. lia.
Qed.

(** From the day number of 1960-01-01, [_ord2ymd] reaches the date so many
    days after it. *)
Lemma _ord2ymd_days_after (d : Z) :
  1 <= 715510 + d <= _MAXORDINAL ->
  days_after epoch d (_ord2ymd (715510 + d)).
Proof.
  intros R. split; [now apply _ord2ymd_spec|].
  assert (E : _ord2ymd 715510 = epoch) by reflexivity.
  assert (M : _MAXORDINAL = 3652059) by reflexivity.
  destruct (Z.leb_spec 0 d).
  - rewrite <- E, <- _ord2ymd_iter by lia. now rewrite Z2Nat.id by lia.
  - rewrite <- _ord2ymd_iter by lia. rewrite <- E.
    rewrite Z2Nat.id by lia. now replace (715510 + d + - d) with 715510 by lia.
Qed.

(* ================================================================= *)
(** ** The immigration cleaner *)

Lemma mapM_In {A B} (f : A -> result B) (l : list A) (l' : list B) :
  mapM f l = Ok l' ->
  forall b, In b l' <-> exists a, In a l /\ f a = Ok b.
Proof.
  revert l'. induction l as [|a l IH]; intros l'; cbn [mapM bind].
  - intros [= <-] b. split; [contradiction|]. intros (a & [] & _).
  - destruct (f a) as [b0|e] eqn:Ea; [|discriminate].
    destruct (mapM f l) as [bs|e]; [|discriminate].
    intros [= <-] b. cbn [In]. rewrite (IH bs eq_refl b). split.
    + intros [<-|(a' & Ha' & E)]; [exists a; auto | exists a'; auto].
    + intros (a' & [<-|Ha'] & E).
      * left. congruence.
      * right. exists a'. auto.
Qed.



Lemma mapM_fixed {A} (f : A -> result A) (l : list A) :
  Forall (fun a => f a = Ok a) l -> mapM f l = Ok l.
Proof.
  induction 1 as [|a l Ea _ IH]; cbn [mapM bind]; [reflexivity|].
  rewrite Ea, IH. reflexivity.
Qed.

Lemma mapM_Raise {A B} (f : A -> result B) (l : list A) (e : exn) :
  mapM f l = Raise e -> exists a, In a l /\ f a = Raise e.
Proof.
  induction l as [|a l IH]; cbn [mapM bind]; [discriminate|].
  destruct (f a) as [b|e0] eqn:Ea.
  - destruct (mapM f l) as [bs|e1]; [discriminate|].
    intros [= ->]. destruct (IH eq_refl) as (x & Hx & Ex).
    exists x. split; [now right | exact Ex].
  - intros [= ->]. exists a. split; [now left | exact Ea].
Qed.


(** When no element raises anything but [e] and one raises it, so does the
    whole. *)
Lemma mapM_raises_only {A B} (f : A -> result B) (l : list A) (e : exn) :
  Forall (fun a => (exists b, f a = Ok b) \/ f a = Raise e) l ->
  Exists (fun a => f a = Raise e) l ->
  mapM f l = Raise e.
Proof.
  induction 1 as [|a l Ha _ IH]; intros Hex; [inversion Hex|].
  cbn [mapM bind]. destruct Ha as [(b & Eb)|Ea].
  - rewrite Eb. inversion Hex as [? ? Ea|? ? Hl]; subst; [congruence|].
    now rewrite (IH Hl).
  - now rewrite Ea.
Qed.

Lemma toordinal_epoch : toordinal epoch = 715510.
Proof. reflexivity. Qed.



(** The date [date_add] returns for a number of days from 1960-01-01. *)
Lemma date_add_epoch (d : Z) (dt : date) :
  date_add epoch d = Ok dt ->
  within_calendar d /\ valid_date dt /\ toordinal dt = 715510 + d
  /\ days_after epoch d dt.
Proof.
  unfold date_add, within_calendar. rewrite toordinal_epoch.
  destruct (999999999 <? Z.abs d); [discriminate|].
  destruct (Z.ltb_spec 0 (715510 + d)); [|discriminate].
  destruct (Z.leb_spec (715510 + d) _MAXORDINAL); [|discriminate].
  destruct (@_ord2ymd_spec (715510 + d)) as [V O]; [lia|].
  pose proof (@_ord2ymd_days_after d ltac:(lia)) as D.
  revert V O D. generalize (_ord2ymd (715510 + d)). intros dt' V O D.
  cbn [andb]. intros [= <-].
  split; [lia|]. split; [exact V|]. split; [exact O | exact D].
Qed.






(** A converted cell is NULL or the ISO text of a date. *)
Lemma get_isoformat_date_text (x y : value) :
  get_isoformat_date x = Ok y ->
  y = VNull \/ exists dt, valid_date dt /\ y = VStr (isoformat dt).
Proof.
  destruct x as [|d|below next_day decimals| |negative|s];
    cbn [get_isoformat_date]; try discriminate.
  - intros [= <-]. now left.
  - destruct (d =? 0); [intros [= <-]; now left|].
    destruct (date_add epoch d) as [dt|] eqn:E; [|discriminate].
    apply date_add_epoch in E as (_ & V & _).
    cbn [bind]. intros [= <-]. right. exists dt. split; [exact V|reflexivity].
  - destruct (date_add epoch (days_of below next_day)) as [dt|] eqn:E;
      [|discriminate].
    apply date_add_epoch in E as (_ & V & _).
    cbn [bind]. intros [= <-]. right. exists dt. split; [exact V|reflexivity].
  - destruct (nonempty s); [discriminate|]. intros [= <-]. now left.
Qed.

Lemma get_valid_birth_year_spec (x y : value) :
  get_valid_birth_year x = Ok y -> y = valid_birth_year x.
Proof.
  destruct x as [|z|below next_day decimals| |negative|s];
    cbn [get_valid_birth_year valid_birth_year]; try now intros [= <-].
  - destruct (Z.eqb_spec z 0) as [->|_]; [now intros [= <-]|].
    destruct ((1900 <=? z) && (z <=? 2016)); now intros [= <-].
  - replace (below + 1 <=? 2016) with (below <? 2016)
      by (destruct (Z.ltb_spec below 2016), (Z.leb_spec (below + 1) 2016);
          reflexivity || lia).
    destruct ((1900 <=? below) && (below <? 2016)); now intros [= <-].
  - destruct (nonempty s); [discriminate | now intros [= <-]].
Qed.


Lemma valid_birth_year_range (x : value) :
  valid_birth_year x = VNull
  \/ exists z decimals,
       valid_birth_year x = VStr (Double_toString z decimals)
       /\ 1900 <= z <= 2016.
Proof.
  destruct x as [|z|below next_day decimals| |negative|s]; cbn; auto.
  - destruct (Z.leb_spec 1900 z), (Z.leb_spec z 2016); cbn; auto.
    right. exists z, (txt "0"). split; [reflexivity | lia].
  - destruct (Z.leb_spec 1900 below), (Z.ltb_spec below 2016); cbn; auto.
    right. exists below, decimals. split; [reflexivity | lia].
Qed.

(** The columns of a cleaned row. *)
Lemma clean_immigration_row_Ok (r r' : sid.row) :
  clean_immigration_row r = Ok r' ->
  get_isoformat_date (sid.arrdate r) = Ok (sid.arrdate r')
  /\ get_isoformat_date (sid.depdate r) = Ok (sid.depdate r')
  /\ get_valid_birth_year (sid.biryear r) = Ok (sid.biryear r').
Proof.
  unfold clean_immigration_row.
  destruct (get_isoformat_date (sid.arrdate r)) as [a|]; [|discriminate].
  destruct (get_isoformat_date (sid.depdate r)) as [d|]; [|discriminate].
  destruct (get_valid_birth_year (sid.biryear r)) as [b|]; [|discriminate].
  cbn [bind]. intros [= <-]. repeat split.
Qed.

Lemma clean_immigration_data_In (immigration_df cleaned : list sid.row) :
  clean_immigration_data immigration_df = Ok cleaned ->
  forall r', In r' cleaned
             <-> exists r, In r immigration_df
                           /\ clean_immigration_row r = Ok r'.
Proof.
  unfold clean_immigration_data, dropDuplicates.
  destruct (mapM clean_immigration_row immigration_df) as [rows|] eqn:E;
    [|discriminate].
  cbn [bind]. intros [= <-] r'. rewrite nodup_In. now apply mapM_In.
Qed.










(** C6, as stated, fails: a cleaned relation holds ISO texts where the
    input held day offsets and the text of the birth year where it held a
    number, and the date conversion and the birth-year function raise on a
    text. *)
Lemma clean_immigration_data_not_idempotent :
  clean_immigration_data [arrival (VNum 20573) VNull VNull]
  = Ok [arrival (VStr (txt "2016-04-29")) VNull VNull]
  /\ clean_immigration_data [arrival (VStr (txt "2016-04-29")) VNull VNull]
     = Raise TypeError
  /\ clean_immigration_data [arrival VNull VNull (VNum 1979)]
     = Ok [arrival VNull VNull (VStr (txt "1979.0"))]
  /\ clean_immigration_data [arrival VNull VNull (VStr (txt "1979.0"))]
     = Raise TypeError.
Proof. repeat split. Qed.

(** A cleaned cell is NULL or a text that is not empty. *)
Lemma get_isoformat_date_null_or_text (x y : value) :
  get_isoformat_date x = Ok y ->
  y = VNull \/ exists c s, y = VStr (c :: s).
Proof.
  intros H. apply get_isoformat_date_text in H as [->|(dt & _ & ->)];
    [now left|].
  right. unfold isoformat. eexists _, _. reflexivity.
Qed.

Lemma get_valid_birth_year_null_or_text (x y : value) :
  get_valid_birth_year x = Ok y ->
  y = VNull \/ exists c s, y = VStr (c :: s).
Proof.
  intros H. apply get_valid_birth_year_spec in H. subst y.
  destruct (valid_birth_year_range x) as [->|(z & ds & -> & _)];
    [now left|].
  right. unfold Double_toString. cbn [app]. eexists _, _. reflexivity.
Qed.

(** Cleaning a cleaned row again: it is returned as it is when its three
    cleaned columns are NULL, and [TypeError] is raised when one is not. *)
Lemma clean_immigration_row_again (r r' : sid.row) :
  clean_immigration_row r = Ok r' ->
  (sid.arrdate r' = VNull /\ sid.depdate r' = VNull
   /\ sid.biryear r' = VNull /\ clean_immigration_row r' = Ok r')
  \/ ((sid.arrdate r' <> VNull \/ sid.depdate r' <> VNull
       \/ sid.biryear r' <> VNull)
      /\ clean_immigration_row r' = Raise TypeError).
Proof.
  intros H. apply clean_immigration_row_Ok in H as (Ea & Ed & Eb).
  apply get_isoformat_date_null_or_text in Ea, Ed.
  apply get_valid_birth_year_null_or_text in Eb.
  unfold clean_immigration_row.
  destruct Ea as [Ea|(c1 & s1 & Ea)]; rewrite Ea;
    [|right; split; [left; discriminate | reflexivity]].
  destruct Ed as [Ed|(c2 & s2 & Ed)]; rewrite Ed;
    [|right; split; [right; left; discriminate | reflexivity]].
  destruct Eb as [Eb|(c3 & s3 & Eb)]; rewrite Eb;
    [|right; split; [right; right; discriminate | reflexivity]].
  left. repeat split. cbn [get_isoformat_date get_valid_birth_year bind].
  f_equal. destruct r'; cbn in *; subst; reflexivity.
Qed.

(** C6, amended: cleaning an already-cleaned immigration relation whose
    arrival dates, departure dates and birth years are all NULL yields the
    identical relation: duplicate elimination changes nothing the second
    time.  When a row of the cleaned relation holds a converted date or a
    kept birth year, the second cleaning fails with [TypeError]. *)
Theorem clean_immigration_data_idempotent
  (immigration_df cleaned : list sid.row) :
  clean_immigration_data immigration_df = Ok cleaned ->
  (Forall (fun r' => sid.arrdate r' = VNull /\ sid.depdate r' = VNull
                     /\ sid.biryear r' = VNull) cleaned ->
   clean_immigration_data cleaned = Ok cleaned)
  /\ (Exists (fun r' => sid.arrdate r' <> VNull \/ sid.depdate r' <> VNull
                        \/ sid.biryear r' <> VNull) cleaned ->
      clean_immigration_data cleaned = Raise TypeError).
Proof.
  intros H. pose proof (clean_immigration_data_In _ H) as HIn.
  assert (Again : forall r', In r' cleaned ->
            (sid.arrdate r' = VNull /\ sid.depdate r' = VNull
             /\ sid.biryear r' = VNull /\ clean_immigration_row r' = Ok r')
            \/ ((sid.arrdate r' <> VNull \/ sid.depdate r' <> VNull
                 \/ sid.biryear r' <> VNull)
                /\ clean_immigration_row r' = Raise TypeError)).
  { intros r' Hr'. apply HIn in Hr' as (r & _ & Er).
    exact (clean_immigration_row_again _ Er). }
  split.
  - intros Hnull. rewrite Forall_forall in Hnull.
    assert (Fix : mapM clean_immigration_row cleaned = Ok cleaned).
    { apply mapM_fixed, Forall_forall. intros r' Hr'.
      destruct (Again r' Hr') as [(_ & _ & _ & E)|(N & _)]; [exact E|].
      destruct (Hnull r' Hr') as (Ea & Ed & Eb). tauto. }
    unfold clean_immigration_data. rewrite Fix. cbn [bind]. f_equal.
    unfold clean_immigration_data in H.
    destruct (mapM clean_immigration_row immigration_df) as [rows|];
      [|discriminate].
    cbn [bind] in H. injection H as <-.
    unfold dropDuplicates. apply nodup_fixed_point, NoDup_nodup.
  - intros Hex. unfold clean_immigration_data.
    rewrite (@mapM_raises_only _ _ clean_immigration_row cleaned TypeError);
      [reflexivity| |].
    + apply Forall_forall. intros r' Hr'.
      destruct (Again r' Hr') as [(_ & _ & _ & E)|(_ & E)];
        [left; now exists r' | now right].
    + apply Exists_exists in Hex as (r' & Hr' & N).
      apply Exists_exists. exists r'. split; [exact Hr'|].
      destruct (Again r' Hr') as [(Ea & Ed & Eb & _)|(_ & E)]; [|exact E].
      tauto.
Qed.

Lemma clean_immigration_data_idempotent_witness :
  (clean_immigration_data
     [arrival VNull VNull (VNum 1850); arrival VNull (VNum 0) VNull]
   = Ok [arrival VNull VNull VNull]
   /\ clean_immigration_data [arrival VNull VNull VNull]
      = Ok [arrival VNull VNull VNull])
  /\ (clean_immigration_data
        [arrival VNull VNull (VNum 1850);
         arrival (VNum 20573) VNull (VNum 1979)]
      = Ok [arrival VNull VNull VNull;
            arrival (VStr (txt "2016-04-29")) VNull (VStr (txt "1979.0"))]
      /\ clean_immigration_data
           [arrival VNull VNull VNull;
            arrival (VStr (txt "2016-04-29")) VNull (VStr (txt "1979.0"))]
         = Raise TypeError).
Proof.
  split; (split; [reflexivity|]).
  - apply (proj1 (@clean_immigration_data_idempotent
                    [arrival VNull VNull (VNum 1850);
                     arrival VNull (VNum 0) VNull]
                    [arrival VNull VNull VNull] eq_refl)).
    repeat constructor.
  - apply (proj2 (@clean_immigration_data_idempotent
                    [arrival VNull VNull (VNum 1850);
                     arrival (VNum 20573) VNull (VNum 1979)]
                    [arrival VNull VNull VNull;
                     arrival (VStr (txt "2016-04-29")) VNull
                             (VStr (txt "1979.0"))] eq_refl)).
    apply Exists_cons_tl, Exists_cons_hd. left. discriminate.
Defined.

(* ================================================================= *)
(** ** The immigration fact table *)

Lemma filter_nil_iff {A} (f : A -> bool) (l : list A) :
  filter f l = [] <-> forall a, In a l -> f a = false.
Proof.
  induction l as [|a l IH]; cbn [filter].
  - split; [intros _ a []|reflexivity].
  - destruct (f a) eqn:Ea; split.
    + discriminate.
    + intros H. specialize (H a (or_introl eq_refl)). congruence.
    + intros H b [<-|Hb]; [exact Ea | now apply IH].
    + intros H. apply IH. intros b Hb. apply H. now right.
Qed.

Lemma in_left_join {A B} (on : A -> B -> tv) (l : list A) (r : list B)
  (a : A) (b : option B) :
  In (a, b) (left_join on l r) <-> In a l /\ matched b (on a) r.
Proof.
  unfold left_join. rewrite in_flat_map. split.
  - intros (a' & Ha' & H).
    destruct (filter (fun b => holds (on a' b)) r) as [|x ms] eqn:F.
    + destruct H as [[= <- <-]|[]]. split; [exact Ha'|].
      cbn [matched]. now apply filter_nil_iff.
    + rewrite <- F in H. apply in_map_iff in H as (b' & [= <- <-] & Hb').
      apply filter_In in Hb'. split; [exact Ha' | exact Hb'].
  - intros [Ha H]. exists a. split; [exact Ha|].
    destruct b as [b|]; cbn [matched] in H.
    + assert (Hb : In b (filter (fun b => holds (on a b)) r))
        by now apply filter_In.
      destruct (filter (fun b => holds (on a b)) r) as [|x ms] eqn:F;
        [contradiction|].
      apply in_map_iff. now exists b.
    + apply filter_nil_iff in H. rewrite H. now left.
Qed.

Lemma left_join_app {A B} (on : A -> B -> tv) (l1 l2 : list A) (r : list B) :
  left_join on (l1 ++ l2) r = left_join on l1 r ++ left_join on l2 r.
Proof. apply flat_map_app. Qed.

Lemma is_not_null_true {A} (a : option A) :
  is_not_null a = true <-> a <> None.
Proof. destruct a; cbn; split; congruence. Qed.

Section FactTableProperties.

Variable code_eq : option text -> value -> tv.

Variable countries_df : list sc.row.
Variable us_states_df : list sus.row.
Variable ports_df : list sp.row.
Variable visa_categories_df : list svc.row.
Variable travel_modes_df : list stm.row.

Let table (immigration_df : list sid.row) : list fact.row :=
  create_immigration_fact_table code_eq immigration_df countries_df
    us_states_df ports_df visa_categories_df travel_modes_df.

Let from (immigration_df : list sid.row) : list joined :=
  from_clause code_eq immigration_df countries_df us_states_df ports_df
    visa_categories_df travel_modes_df.

Lemma in_from_clause (immigration_df : list sid.row) (s : sid.row)
  (c : option sc.row) (p : option sp.row) (u : option sus.row)
  (v : option svc.row) (m : option stm.row) :
  In (s, c, p, u, v, m) (from immigration_df)
  <-> In s immigration_df
      /\ matched c (fun r => code_eq (sc.country_code r) (sid.i94res s))
                 countries_df
      /\ matched p (fun r => code_eq (sp.port_code r) (sid.i94port s))
                 ports_df
      /\ matched u (fun r => code_eq (sus.state_code r) (sid.i94addr s))
                 us_states_df
      /\ matched v (fun r => code_eq (svc.visa_category_id r) (sid.i94visa s))
                 visa_categories_df
      /\ matched m (fun r => code_eq (stm.mode_id r) (sid.i94mode s))
                 travel_modes_df.
Proof.
  unfold from, from_clause. rewrite !in_left_join. cbn [fst]. tauto.
Qed.

Lemma from_clause_app (l1 l2 : list sid.row) :
  from (l1 ++ l2) = from l1 ++ from l2.
Proof. unfold from, from_clause. now rewrite !left_join_app. Qed.

Lemma table_app (l1 l2 : list sid.row) :
  table (l1 ++ l2) = table l1 ++ table l2.
Proof.
  unfold table, create_immigration_fact_table.
  fold (from (l1 ++ l2)) (from l1) (from l2).
  now rewrite from_clause_app, filter_app, map_app.
Qed.

(** The rows of the fact table: one for every way to pick, for an
    immigration row, a row of each code-book whose code is not NULL and
    equals the coded cell. *)
Lemma in_table (immigration_df : list sid.row) (f : fact.row) :
  In f (table immigration_df)
  <-> exists s c p u v m,
        In s immigration_df
        /\ resolved_by code_eq sc.country_code countries_df (sid.i94res s) c
        /\ resolved_by code_eq sp.port_code ports_df (sid.i94port s) p
        /\ resolved_by code_eq sus.state_code us_states_df (sid.i94addr s) u
        /\ resolved_by code_eq svc.visa_category_id visa_categories_df
                       (sid.i94visa s) v
        /\ resolved_by code_eq stm.mode_id travel_modes_df (sid.i94mode s) m
        /\ f = select_clause (s, Some c, Some p, Some u, Some v, Some m).
Proof.
  unfold table, create_immigration_fact_table, resolved_by.
  fold (from immigration_df). rewrite in_map_iff. split.
  - intros (j & <- & Hj). apply filter_In in Hj as [Hj W].
    destruct j as [[[[[s c] p] u] v] m].
    apply in_from_clause in Hj as (Hs & Hc & Hp & Hu & Hv & Hm).
    cbn [where_clause] in W. rewrite !andb_true_iff, !is_not_null_true in W.
    destruct W as [[[[Wc Wp] Wu] Wm] Wv].
    destruct c as [c|]; [|now contradiction Wc].
    destruct p as [p|]; [|now contradiction Wp].
    destruct u as [u|]; [|now contradiction Wu].
    destruct v as [v|]; [|now contradiction Wv].
    destruct m as [m|]; [|now contradiction Wm].
    cbn [matched col] in *. exists s, c, p, u, v, m. tauto.
  - intros (s & c & p & u & v & m & Hs & Hc & Hp & Hu & Hv & Hm & ->).
    exists (s, Some c, Some p, Some u, Some v, Some m).
    split; [reflexivity|]. apply filter_In. split.
    + apply in_from_clause. cbn [matched]. tauto.
    + cbn [where_clause col].
      rewrite !andb_true_iff, !is_not_null_true. tauto.
Qed.

(** C2: every row of the fact table has its origin-country, port, state,
    visa-category and travel-mode codes present, not NULL, in the matching
    code-book; the builder, which never fails, leaves out an immigration
    row one of whose codes resolves in no row of its code-book: the table
    is the same as without that row; and the left joins followed by the
    not-null filter act as inner joins: the rows of the table are those
    built from an immigration row and, for each of its five codes, a row
    of the code-book that resolves it. *)
Theorem create_immigration_fact_table_integrity
  (immigration_df : list sid.row) :
  Forall (fun f =>
            present (fact.origin_country_code f) sc.country_code countries_df
            /\ present (fact.port_code f) sp.port_code ports_df
            /\ present (fact.us_state_code f) sus.state_code us_states_df
            /\ present (fact.visa_category_code f) svc.visa_category_id
                       visa_categories_df
            /\ present (fact.travel_mode_code f) stm.mode_id travel_modes_df)
         (create_immigration_fact_table code_eq immigration_df countries_df
            us_states_df ports_df visa_categories_df travel_modes_df)
  /\ (forall before s after,
        immigration_df = before ++ s :: after ->
        ~ (resolves code_eq sc.country_code countries_df (sid.i94res s)
           /\ resolves code_eq sp.port_code ports_df (sid.i94port s)
           /\ resolves code_eq sus.state_code us_states_df (sid.i94addr s)
           /\ resolves code_eq svc.visa_category_id visa_categories_df
                       (sid.i94visa s)
           /\ resolves code_eq stm.mode_id travel_modes_df (sid.i94mode s)) ->
        create_immigration_fact_table code_eq immigration_df countries_df
          us_states_df ports_df visa_categories_df travel_modes_df
        = create_immigration_fact_table code_eq (before ++ after)
            countries_df us_states_df ports_df visa_categories_df
            travel_modes_df)
  /\ (forall f,
        In f (create_immigration_fact_table code_eq immigration_df
                countries_df us_states_df ports_df visa_categories_df
                travel_modes_df)
        <-> exists s c p u v m,
              In s immigration_df
              /\ resolved_by code_eq sc.country_code countries_df
                             (sid.i94res s) c
              /\ resolved_by code_eq sp.port_code ports_df (sid.i94port s) p
              /\ resolved_by code_eq sus.state_code us_states_df
                             (sid.i94addr s) u
              /\ resolved_by code_eq svc.visa_category_id visa_categories_df
                             (sid.i94visa s) v
              /\ resolved_by code_eq stm.mode_id travel_modes_df
                             (sid.i94mode s) m
              /\ f = select_clause
                       (s, Some c, Some p, Some u, Some v, Some m)).
Proof.
  fold (table immigration_df). split; [|split].
  - apply Forall_forall. intros f Hf.
    apply in_table in Hf
        as (s & c & p & u & v & m & _ & Hc & Hp & Hu & Hv & Hm & ->).
    cbn [select_clause col fact.origin_country_code fact.port_code
         fact.us_state_code fact.visa_category_code fact.travel_mode_code].
    unfold resolved_by in *. unfold present. repeat split; try tauto.
    + now exists c. + now exists p. + now exists u. + now exists v.
    + now exists m.
  - intros before s after -> Hun. fold (table (before ++ after)).
    change (s :: after) with ([s] ++ after). rewrite !table_app.
    replace (table [s]) with (@nil fact.row); [reflexivity|].
    destruct (table [s]) as [|f fs] eqn:E; [reflexivity|]. exfalso.
    assert (Hf : In f (table [s])) by (rewrite E; now left).
    apply in_table in Hf
        as (s' & c & p & u & v & m & [<-|[]] & Hc & Hp & Hu & Hv & Hm & _).
    apply Hun. unfold resolves. repeat split.
    + now exists c. + now exists p. + now exists u. + now exists v.
    + now exists m.
  - intros f. apply in_table.
Qed.

End FactTableProperties.

Lemma create_immigration_fact_table_integrity_witness :
  create_immigration_fact_table example_eq
    ([arrival (VNum 20573) VNull (VNum 1979)]
     ++ arriving (VStr (txt "99")) (VNum 20574) VNull (VNum 1980) :: [])
    [sc.mk (Some (txt "692")) (Some (txt "ECUADOR"))]
    [sus.mk (Some (txt "GA")) (Some (txt "GEORGIA"))]
    [sp.mk (Some (txt "ATL")) (Some (txt "ATLANTA")) (Some (txt "GA"))]
    [svc.mk (Some (txt "2")) (Some (txt "Pleasure"))]
    [stm.mk (Some (txt "1")) (Some (txt "Air"))]
  = create_immigration_fact_table example_eq
      ([arrival (VNum 20573) VNull (VNum 1979)] ++ [])
      [sc.mk (Some (txt "692")) (Some (txt "ECUADOR"))]
      [sus.mk (Some (txt "GA")) (Some (txt "GEORGIA"))]
      [sp.mk (Some (txt "ATL")) (Some (txt "ATLANTA")) (Some (txt "GA"))]
      [svc.mk (Some (txt "2")) (Some (txt "Pleasure"))]
      [stm.mk (Some (txt "1")) (Some (txt "Air"))].
Proof.
  eapply (proj1 (proj2 (create_immigration_fact_table_integrity example_eq
                          _ _ _ _ _ _))).
  - reflexivity.
  - intros (_ & _ & (r & [<-|[]] & _ & H) & _). discriminate H.
Defined.

Example fact_table_of_one_arrival :
  create_immigration_fact_table example_eq
    [arrival (VNum 20573) VNull (VNum 1979);
     arriving (VStr (txt "99")) (VNum 20574) VNull (VNum 1980)]
    [sc.mk (Some (txt "692")) (Some (txt "ECUADOR"))]
    [sus.mk (Some (txt "GA")) (Some (txt "GEORGIA"))]
    [sp.mk (Some (txt "ATL")) (Some (txt "ATLANTA")) (Some (txt "GA"))]
    [svc.mk (Some (txt "2")) (Some (txt "Pleasure"))]
    [stm.mk (Some (txt "1")) (Some (txt "Air"))]
  = [fact.mk (VNum 6) (VNum 2016) (VNum 4) (Some (txt "692"))
       (Some (txt "ATL")) (VNum 20573) (Some (txt "1")) (Some (txt "GA"))
       VNull (VNum 37) (Some (txt "2")) VNull (VStr (txt "M")) (VNum 1979)
       (VStr (txt "10282016")) (VStr (txt "DL")) (VNum 92468461330)
       (VStr (txt "00758")) (VStr (txt "B2"))].
Proof. reflexivity. Qed.

(* ================================================================= *)
(** ** The city-demographics dimension *)

Lemma SUM_total (cells : list (option Z)) :
  cells <> [] -> Forall (fun c => c <> None) cells ->
  SUM cells = Some (total cells).
Proof.
  induction cells as [|c cells IH]; [congruence|]. intros _ H.
  inversion H as [|c' cells' Hc Hcells]; subst.
  destruct c as [z|]; [|congruence]. cbn [SUM total fold_right].
  destruct cells as [|c' cells].
  - cbn. f_equal. lia.
  - rewrite IH by (congruence || assumption). reflexivity.
Qed.

Lemma holds_sql_eq (a b : option text) :
  holds (sql_eq a b) = true <-> exists x, a = Some x /\ b = Some x.
Proof.
  destruct a as [x|], b as [y|]; cbn; unfold text_eqb.
  - destruct (text_eq_dec x y) as [->|n]; cbn; split.
    + intros _. now exists y.
    + reflexivity.
    + discriminate.
    + intros (z & [= ->] & [= ->]). contradiction.
  - split; [discriminate|]. intros (z & _ & [=]).
  - split; [discriminate|]. intros (z & [=] & _).
  - split; [discriminate|]. intros (z & [=] & _).
Qed.

Lemma holds_sql_and (a b : tv) :
  holds (sql_and a b) = true <-> holds a = true /\ holds b = true.
Proof.
  destruct a as [[|]|], b as [[|]|]; cbn; intuition discriminate.
Qed.

Lemma in_inner_join {A B} (on : A -> B -> tv) (l : list A) (r : list B)
  (a : A) (b : B) :
  In (a, b) (inner_join on l r)
  <-> In a l /\ In b r /\ holds (on a b) = true.
Proof.
  unfold inner_join. rewrite in_flat_map. split.
  - intros (a' & Ha' & H). apply in_map_iff in H as (b' & [= <- <-] & Hb').
    apply filter_In in Hb'. tauto.
  - intros (Ha & Hb & H). exists a. split; [exact Ha|].
    apply in_map_iff. exists b. split; [reflexivity|]. now apply filter_In.
Qed.

Lemma NoDup_inner_join {A B} (on : A -> B -> tv) (l : list A) (r : list B) :
  NoDup l -> NoDup r -> NoDup (inner_join on l r).
Proof.
  intros Hl Hr. induction Hl as [|a l Ha Hl IH]; [constructor|].
  change (inner_join on (a :: l) r)
    with (map (fun b => (a, b)) (filter (fun b => holds (on a b)) r)
          ++ inner_join on l r).
  apply NoDup_app; [|exact IH|].
  - apply NoDup_map_NoDup_ForallPairs; [|now apply NoDup_filter].
    intros x y _ _ [= E]. exact E.
  - intros [a' b] H1 H2. apply in_map_iff in H1 as (b' & [= <- <-] & _).
    apply in_inner_join in H2 as [H2 _]. contradiction.
Qed.

Lemma isnan_normalize_double (c : option double) :
  sud.is_nan (sud.normalize_double c) = sud.is_nan c.
Proof.
  destruct c as [x|]; [|reflexivity]. cbn [sud.normalize_double sud.is_nan].
  destruct (Z.eqb_spec x negative_zero) as [->|_]; reflexivity.
Qed.

Lemma is_not_null_normalize_double (c : option double) :
  is_not_null (sud.normalize_double c) = is_not_null c.
Proof. now destruct c. Qed.

Lemma has_null_normalize (r : sud.row) :
  sud.has_null (sud.normalize r) = sud.has_null r.
Proof.
  unfold sud.has_null, sud.normalize.
  cbn [sud.city sud.state sud.median_age sud.male_population
       sud.female_population sud.total_population sud.number_of_veterans
       sud.foreign_born sud.average_household_size sud.state_code sud.race
       sud.count].
  now rewrite !isnan_normalize_double, !is_not_null_normalize_double.
Qed.

(** The cleaned demographics relation: the rows without NULL and NaN,
    their zeros made one. *)
Lemma clean_us_demographics_data_In (us_demographics_df : list sud.row)
  (r : sud.row) :
  In r (clean_us_demographics_data us_demographics_df) ->
  (exists r0, In r0 us_demographics_df /\ r = sud.normalize r0)
  /\ sud.has_null r = false.
Proof.
  unfold clean_us_demographics_data, dropDuplicates.
  rewrite nodup_In, in_map_iff. intros (r0 & <- & H).
  apply filter_In in H as [H N]. apply negb_true_iff in N.
  split; [now exists r0 | now rewrite has_null_normalize].
Qed.

Lemma group_In (k : key) (df : list sud.row) (r : sud.row) :
  In r (group k df) <-> In r df /\ group_key r = k.
Proof.
  unfold group. rewrite filter_In.
  destruct (key_eq_dec (group_key r) k); intuition discriminate.
Qed.

Lemma in_aggregated_df (df : list sud.row) (a : cd.row) :
  In a (aggregated_df df)
  <-> exists r, In r df
                /\ a = aggregate (group_key r) (group (group_key r) df).
Proof.
  unfold aggregated_df. rewrite in_map_iff. split.
  - intros (k & <- & Hk). apply nodup_In, in_map_iff in Hk as (r & <- & Hr).
    now exists r.
  - intros (r & Hr & ->). exists (group_key r). split; [reflexivity|].
    apply nodup_In, in_map_iff. now exists r.
Qed.

(** Two rows of the aggregated relation with the same key are one row. *)
Lemma aggregated_df_key (df : list sud.row) (a b : cd.row) :
  In a (aggregated_df df) -> In b (aggregated_df df) ->
  cd.city a = cd.city b -> cd.state_code a = cd.state_code b -> a = b.
Proof.
  intros Ha Hb. apply in_aggregated_df in Ha as (r & _ & ->).
  apply in_aggregated_df in Hb as (q & _ & ->).
  unfold aggregate. cbn [cd.city cd.state_code]. intros E1 E2.
  assert (E : group_key r = group_key q).
  { destruct (group_key r), (group_key q). cbn [fst snd] in *. congruence. }
  now rewrite E.
Qed.

Lemma NoDup_aggregated_df (df : list sud.row) : NoDup (aggregated_df df).
Proof.
  unfold aggregated_df.
  apply NoDup_map_NoDup_ForallPairs; [|apply NoDup_nodup].
  intros k1 k2 _ _ E. unfold aggregate in E.
  injection E as E1 E2 _. destruct k1, k2. cbn [fst snd] in *. congruence.
Qed.

Lemma has_null_false (r : sud.row) :
  sud.has_null r = false ->
  sud.city r <> None /\ sud.state_code r <> None
  /\ sud.male_population r <> None /\ sud.female_population r <> None
  /\ sud.total_population r <> None /\ sud.number_of_veterans r <> None
  /\ sud.foreign_born r <> None.
Proof.
  unfold sud.has_null.
  rewrite !orb_false_iff, negb_false_iff, !andb_true_iff, !is_not_null_true.
  tauto.
Qed.

Lemma SUM_group (column : sud.row -> option Z) (df : list sud.row)
  (r : sud.row) :
  (forall q, In q df -> column q <> None) -> In r df ->
  SUM (map column (group (group_key r) df))
  = Some (total (map column (group (group_key r) df))).
Proof.
  intros Hcol Hr. apply SUM_total.
  - assert (H : In r (group (group_key r) df)) by now apply group_In.
    destruct (group (group_key r) df); [contradiction | discriminate].
  - apply Forall_forall. intros c Hc.
    apply in_map_iff in Hc as (q & <- & Hq).
    apply group_In in Hq as [Hq _]. now apply Hcol.
Qed.

(** The aggregated row of a city of the cleaned demographics relation. *)
Lemma aggregate_cleaned (us_demographics_df : list sud.row) (r : sud.row)
  (c st : text) :
  let df := clean_us_demographics_data us_demographics_df in
  In r df -> sud.city r = Some c -> sud.state_code r = Some st ->
  aggregate (group_key r) (group (group_key r) df)
  = cd.mk (Some c) (Some st)
          (Some (city_total sud.male_population c st df))
          (Some (city_total sud.female_population c st df))
          (Some (city_total sud.total_population c st df))
          (Some (city_total sud.number_of_veterans c st df))
          (Some (city_total sud.foreign_born c st df)).
Proof.
  intros df Hr Ec Es.
  assert (N : forall q, In q df ->
            sud.male_population q <> None /\ sud.female_population q <> None
            /\ sud.total_population q <> None
            /\ sud.number_of_veterans q <> None
            /\ sud.foreign_born q <> None).
  { intros q Hq. apply clean_us_demographics_data_In in Hq as [_ Hq].
    apply has_null_false in Hq. tauto. }
  unfold aggregate.
  rewrite !SUM_group by (assumption || (intros q Hq; now apply N)).
  unfold city_total, group_key. rewrite Ec, Es. reflexivity.
Qed.

Lemma lower_eq (a : option text) (c : text) :
  holds (sql_eq (lower (Some c)) (lower a)) = true
  <-> exists pc, a = Some pc /\ map lower_char c = map lower_char pc.
Proof.
  rewrite holds_sql_eq. cbn [lower option_map]. split.
  - intros (x & [= <-] & E). destruct a as [pc|]; [|discriminate].
    injection E as E. now exists pc.
  - intros (pc & -> & E). exists (map lower_char c). now rewrite E.
Qed.

(** C5, as stated, fails: two code-book rows with one port code and one
    state whose city names differ in letter case both survive the ports
    cleaner and both match the same city, so the dimension holds the row
    of one (city, state code, port code) combination twice. *)
Lemma create_city_demographics_dim_table_repeats_a_row :
  create_city_demographics_dim_table
    (clean_us_demographics_data
       [census (txt "Atlanta") (txt "GA") (txt "White") 40 60 100 7 9;
        census (txt "Atlanta") (txt "GA") (txt "Asian") 90 110 200 3 50])
    (clean_ports_data
       [i94port.mk (Some (txt "ATL")) (Some (txt "ATLANTA, GA"));
        i94port.mk (Some (txt "ATL")) (Some (txt "Atlanta, GA"))])
  = [dim.mk (Some (txt "ATL"))
            (cd.mk (Some (txt "Atlanta")) (Some (txt "GA")) (Some 130)
                   (Some 170) (Some 300) (Some 10) (Some 59));
     dim.mk (Some (txt "ATL"))
            (cd.mk (Some (txt "Atlanta")) (Some (txt "GA")) (Some 130)
                   (Some 170) (Some 300) (Some 10) (Some 59))].
Proof. reflexivity. Qed.

(** C5, amended: the rows of the city-demographics dimension are the rows
    (port code, city, state code, sums) for a row of the cleaned ports
    relation and a city and state code of the cleaned demographics relation
    with equal state codes and city names equal up to letter case, the sums
    being those of the male, female and total population, veterans and
    foreign-born columns over all rows of that city and state code in the
    cleaned demographics relation; a city without such a port has no row.
    When no two rows of the cleaned ports relation agree on port code,
    state code and city name up to letter case, the dimension holds exactly
    one row per (city, state code, port code) combination. *)
Theorem create_city_demographics_dim_table_spec
  (us_demographics_df : list sud.row) (i94ports : list i94port.row) :
  let demographics := clean_us_demographics_data us_demographics_df in
  let ports_df := clean_ports_data i94ports in
  let table := create_city_demographics_dim_table demographics ports_df in
  (forall row,
     In row table
     <-> exists p pc c st,
           In p ports_df /\ sp.city p = Some pc /\ sp.state_code p = Some st
           /\ map lower_char c = map lower_char pc
           /\ (exists r, In r demographics /\ sud.city r = Some c
                         /\ sud.state_code r = Some st)
           /\ row
              = dim.mk (sp.port_code p)
                  (cd.mk (Some c) (Some st)
                     (Some (city_total sud.male_population c st demographics))
                     (Some (city_total sud.female_population c st
                              demographics))
                     (Some (city_total sud.total_population c st
                              demographics))
                     (Some (city_total sud.number_of_veterans c st
                              demographics))
                     (Some (city_total sud.foreign_born c st demographics))))
  /\ (ports_apart ports_df -> NoDup (map combination table)).
Proof.
  intros demographics ports_df table. split.
  - intros row. unfold table, create_city_demographics_dim_table.
    rewrite in_map_iff. split.
    + intros ([p a] & <- & H). cbn [fst snd].
      apply in_inner_join in H as (Hp & Ha & Hon).
      apply in_aggregated_df in Ha as (r & Hr & ->).
      pose proof Hr as Hn.
      apply clean_us_demographics_data_In in Hn as [_ Hn].
      apply has_null_false in Hn as (Nc & Ns & _).
      destruct (sud.city r) as [c|] eqn:Ec; [|congruence].
      destruct (sud.state_code r) as [st|] eqn:Es; [|congruence].
      unfold demographics in *.
      rewrite (aggregate_cleaned _ r Hr Ec Es) in *.
      unfold on_city_state in Hon. cbn [cd.city cd.state_code] in Hon.
      apply holds_sql_and in Hon as [Hc Hs].
      apply lower_eq in Hc as (pc & Epc & El).
      apply holds_sql_eq in Hs as (x & [= <-] & Ex).
      exists p, pc, c, st. repeat split; try assumption. now exists r.
    + intros (p & pc & c & st & Hp & Epc & Est & El & (r & Hr & Ec & Es) & ->).
      exists (p, aggregate (group_key r) (group (group_key r) demographics)).
      cbn [fst snd]. unfold demographics in *.
      rewrite (aggregate_cleaned _ r Hr Ec Es). split; [reflexivity|].
      apply in_inner_join. split; [exact Hp|]. split.
      * rewrite <- (aggregate_cleaned _ r Hr Ec Es).
        apply in_aggregated_df. now exists r.
      * unfold on_city_state. cbn [cd.city cd.state_code].
        apply holds_sql_and. split.
        -- apply lower_eq. now exists pc.
        -- apply holds_sql_eq. now exists st.
  - intros Apart. unfold table, create_city_demographics_dim_table.
    rewrite map_map.
    apply NoDup_map_NoDup_ForallPairs.
    + intros [p a] [q b] H1 H2. unfold combination.
      cbn [fst snd dim.port_code dim.demographics]. intros [= Ec Es Ep].
      apply in_inner_join in H1 as (Hp & Ha & Hon1).
      apply in_inner_join in H2 as (Hq & Hb & Hon2).
      assert (E : a = b) by (eapply aggregated_df_key; eassumption).
      subst b. f_equal.
      unfold on_city_state in Hon1, Hon2.
      apply holds_sql_and in Hon1 as [Hc1 Hs1].
      apply holds_sql_and in Hon2 as [Hc2 Hs2].
      apply holds_sql_eq in Hc1 as (x1 & Ea1 & Ep1).
      apply holds_sql_eq in Hc2 as (x2 & Ea2 & Ep2).
      apply holds_sql_eq in Hs1 as (y1 & Eb1 & Eq1).
      apply holds_sql_eq in Hs2 as (y2 & Eb2 & Eq2).
      apply Apart; congruence.
    + apply NoDup_inner_join; [|apply NoDup_aggregated_df].
      unfold ports_df, clean_ports_data, dropDuplicates. apply NoDup_nodup.
Qed.

Lemma create_city_demographics_dim_table_spec_witness :
  NoDup
    (map combination
       (create_city_demographics_dim_table
          (clean_us_demographics_data
             [census (txt "Atlanta") (txt "GA") (txt "White") 40 60 100 7 9;
              census (txt "Atlanta") (txt "GA") (txt "Asian") 90 110 200 3
                     50])
          (clean_ports_data
             [i94port.mk (Some (txt "ATL")) (Some (txt "ATLANTA, GA"));
              i94port.mk (Some (txt "SAV")) (Some (txt "SAVANNAH, GA"))]))).
Proof.
  apply (proj2 (create_city_demographics_dim_table_spec
           [census (txt "Atlanta") (txt "GA") (txt "White") 40 60 100 7 9;
            census (txt "Atlanta") (txt "GA") (txt "Asian") 90 110 200 3 50]
           [i94port.mk (Some (txt "ATL")) (Some (txt "ATLANTA, GA"));
            i94port.mk (Some (txt "SAV")) (Some (txt "SAVANNAH, GA"))])).
  intros p q Hp Hq. vm_compute in Hp, Hq.
  destruct Hp as [<-|[<-|[]]], Hq as [<-|[<-|[]]];
    intros E1 E2 E3; try reflexivity; discriminate E1.
Defined.

(* ================================================================= *)
(** ** The label-document parser *)

Lemma startswith_iff (p s : text) :
  startswith p s = true <-> exists rest, s = p ++ rest.
Proof.
  revert s. induction p as [|a p IH]; intros s; cbn [startswith].
  - split; [intros _; now exists s | reflexivity].
  - destruct s as [|b s]; [split; [discriminate | intros (r & [=])]|].
    rewrite andb_true_iff, Ascii.eqb_eq, IH. split.
    + intros [-> (r & ->)]. now exists r.
    + intros (r & [= -> ->]). split; [reflexivity | now exists r].
Qed.

Lemma find_unfold (sub s : text) :
  find sub s
  = if startswith sub s then Some 0%nat
    else match s with
         | [] => None
         | _ :: s' => option_map S (find sub s')
         end.
Proof. destruct s; reflexivity. Qed.

Lemma find_first (sub s before : text) :
  first_occurrence sub s before -> find sub s = Some (length before).
Proof.
  revert s. induction before as [|c before IH]; intros s [(rest & ->) Hmin].
  - cbn [app length]. rewrite find_unfold.
    rewrite (proj2 (startswith_iff sub (sub ++ rest))); [reflexivity|].
    now exists rest.
  - rewrite find_unfold.
    destruct (startswith sub ((c :: before) ++ sub ++ rest)) eqn:E.
    + apply startswith_iff in E as (rest' & E).
      specialize (Hmin [] rest' E). cbn in Hmin. lia.
    + cbn [app length]. rewrite IH; [reflexivity|]. split; [now exists rest|].
      intros before' rest' E'.
      specialize (Hmin (c :: before') rest'). cbn [app length] in Hmin.
      rewrite E' in Hmin. specialize (Hmin eq_refl). lia.
Qed.

Lemma find_absent (sub s : text) : absent sub s -> find sub s = None.
Proof.
  unfold absent. induction s as [|c s IH]; intros H; rewrite find_unfold.
  - destruct (startswith sub []) eqn:E; [|reflexivity].
    apply startswith_iff in E as (rest & E). now contradiction (H [] rest).
  - destruct (startswith sub (c :: s)) eqn:E.
    + apply startswith_iff in E as (rest & E). now contradiction (H [] rest).
    + rewrite IH; [reflexivity|]. intros before rest E'.
      apply (H (c :: before) rest). cbn [app]. now rewrite E'.
Qed.

Lemma find_char (c : ascii) (a b : text) :
  ~ In c a -> find [c] (a ++ c :: b) = Some (length a).
Proof.
  induction a as [|x a IH]; intros H; rewrite find_unfold; cbn [startswith].
  - cbn [app]. now rewrite Ascii.eqb_refl.
  - cbn [app length]. destruct (Ascii.eqb_spec c x) as [->|ne].
    + contradiction H. now left.
    + cbn [andb]. rewrite IH; [reflexivity|]. intros Hc. apply H. now right.
Qed.

Lemma find_char_absent (c : ascii) (s : text) :
  ~ In c s -> find [c] s = None.
Proof.
  induction s as [|x s IH]; intros H; rewrite find_unfold; cbn [startswith];
    [reflexivity|].
  destruct (Ascii.eqb_spec c x) as [->|ne].
  - contradiction H. now left.
  - cbn [andb]. rewrite IH; [reflexivity|]. intros Hc. apply H. now right.
Qed.

Lemma split_length (sep : ascii) (s : text) :
  length (split sep s) = S (count_occ ascii_dec s sep).
Proof.
  induction s as [|c s IH]; [reflexivity|]. cbn [split count_occ].
  destruct (Ascii.eqb_spec c sep) as [->|ne].
  - destruct (ascii_dec sep sep); [|contradiction]. cbn [length].
    now rewrite IH.
  - destruct (ascii_dec c sep); [contradiction|].
    destruct (split sep s); [discriminate IH | exact IH].
Qed.

Lemma upto_all (sep : ascii) (s : text) :
  count_occ ascii_dec s sep = 0%nat -> upto sep s = s.
Proof.
  induction s as [|c s IH]; [reflexivity|]. cbn [count_occ upto].
  destruct (ascii_dec c sep) as [->|ne]; [discriminate|].
  intros H. rewrite (proj2 (Ascii.eqb_neq c sep) ne), IH; auto.
Qed.

Lemma count_occ_after (sep : ascii) (s : text) :
  In sep s ->
  count_occ ascii_dec s sep = S (count_occ ascii_dec (after sep s) sep).
Proof.
  induction s as [|c s IH]; [contradiction|]. cbn [count_occ after].
  destruct (ascii_dec c sep) as [->|ne].
  - now rewrite Ascii.eqb_refl.
  - rewrite (proj2 (Ascii.eqb_neq c sep) ne).
    intros [E|H]; [contradiction | now apply IH].
Qed.

(** One turn of the loop adds the entry of the line, if it has one. *)
Lemma add_line_entry (code_value_pairs : list (text * text)) (line : text) :
  add_line code_value_pairs line = code_value_pairs ++ entry line.
Proof.
  unfold add_line, entry. rewrite split_length. cbn [Nat.eqb].
  destruct (count_occ ascii_dec line "="%char =? 1)%nat eqn:E; cbn [negb];
    [|now rewrite app_nil_r].
  apply Nat.eqb_eq in E.
  assert (Hin : In "="%char line).
  { apply (count_occ_In ascii_dec). lia. }
  rewrite split_first, (split_second _ _ Hin).
  rewrite (@upto_all "="%char (after "="%char line)); [reflexivity|].
  rewrite (count_occ_after _ _ Hin) in E. lia.
Qed.

Lemma fold_left_add_line (lines : list text) (acc : list (text * text)) :
  fold_left add_line lines acc = acc ++ flat_map entry lines.
Proof.
  revert acc. induction lines as [|line lines IH]; intros acc; cbn.
  - now rewrite app_nil_r.
  - now rewrite IH, add_line_entry, <- app_assoc.
Qed.

(** C4: the parser returns, in document order, the entries of the block
    that runs from the first occurrence of the block name to the next
    [;]: one pair for each line holding exactly one [=], both sides
    stripped of surrounding white space and then of enclosing quotes,
    other lines being skipped.  It fails with [BlockNotFoundError] when
    the name occurs nowhere and with [MalformedBlockError] when no [;]
    follows its first occurrence. *)
Theorem get_data_from_sas_labels_file_spec (file_data label_name : text) :
  (absent label_name file_data ->
   get_data_from_sas_labels_file file_data label_name
   = Raise BlockNotFoundError)
  /\ (forall before tail,
        file_data = before ++ tail ->
        first_occurrence label_name file_data before ->
        ~ In ";"%char tail ->
        get_data_from_sas_labels_file file_data label_name
        = Raise MalformedBlockError)
  /\ (forall before block rest,
        file_data = before ++ block ++ ";"%char :: rest ->
        first_occurrence label_name file_data before ->
        ~ In ";"%char block ->
        get_data_from_sas_labels_file file_data label_name
        = Ok (entries block)).
Proof.
  unfold get_data_from_sas_labels_file, index. split; [|split].
  - intros H. now rewrite (find_absent H).
  - intros before tail -> Hfirst Hno.
    rewrite (find_first Hfirst). cbn [bind].
    rewrite skipn_app, Nat.sub_diag, skipn_all. cbn [app skipn].
    change (txt ";") with [";"%char].
    now rewrite (@find_char_absent _ _ Hno).
  - intros before block rest -> Hfirst Hno.
    rewrite (find_first Hfirst). cbn [bind].
    rewrite skipn_app, Nat.sub_diag, skipn_all. cbn [app skipn].
    change (txt ";") with [";"%char]. rewrite (@find_char _ _ rest Hno).
    cbn [bind]. rewrite firstn_app, Nat.sub_diag, firstn_all.
    cbn [firstn]. rewrite app_nil_r, fold_left_add_line. reflexivity.
Qed.

(** Conversely, what [find] returns is the first occurrence, and it finds
    nothing only when there is none. *)
Lemma find_Some_first (sub s : text) (i : nat) :
  find sub s = Some i -> first_occurrence sub s (firstn i s).
Proof.
  revert i. induction s as [|c s IH]; intros i; rewrite find_unfold.
  - destruct (startswith sub []) eqn:E; [|discriminate].
    intros [= <-]. apply startswith_iff in E as (rest & E).
    split; [now exists rest | cbn; lia].
  - destruct (startswith sub (c :: s)) eqn:E.
    + intros [= <-]. apply startswith_iff in E as (rest & E).
      split; [now exists rest | cbn; lia].
    + destruct (find sub s) as [i'|]; [|discriminate].
      cbn [option_map]. intros [= <-].
      destruct (IH i' eq_refl) as [(rest & Hr) Hmin]. cbn [firstn]. split.
      * exists rest. cbn [app]. now rewrite <- Hr.
      * intros [|c' before'] rest' E'.
        -- cbn [app] in E'.
           rewrite (proj2 (startswith_iff sub (c :: s))) in E;
             [discriminate | now exists rest'].
        -- cbn [app] in E'. injection E' as _ E'.
           specialize (Hmin before' rest' E'). cbn [length]. lia.
Qed.

Lemma find_None_absent (sub s : text) : find sub s = None -> absent sub s.
Proof.
  intros H before rest E.
  assert (F : exists i, find sub s = Some i); [|destruct F; congruence].
  clear H. subst s. induction before as [|c before IH]; rewrite find_unfold.
  - cbn [app]. rewrite (proj2 (startswith_iff sub (sub ++ rest)));
      [now exists 0%nat | now exists rest].
  - destruct (startswith sub ((c :: before) ++ sub ++ rest));
      [now exists 0%nat|].
    cbn [app]. destruct IH as (i & ->). now exists (S i).
Qed.

Lemma get_data_from_sas_labels_file_spec_witness :
  get_data_from_sas_labels_file label_document (txt "I94PORT")
  = Ok [(txt "ATL", txt "ATLANTA, GA     ")].
Proof.
  apply (proj2 (proj2 (get_data_from_sas_labels_file_spec
                         label_document (txt "I94PORT")))
           (txt "/* ")
           (txt "I94PORT */ value I94PORT
   'ATL'	=	'ATLANTA, GA     '
   'a=b' = 'skipped'
")
           (txt "
I94MODE 1 = 'Air' ;")).
  - reflexivity.
  - exact (@find_Some_first (txt "I94PORT") label_document 3 eq_refl).
  - cbn. intuition discriminate.
Defined.

(* ================================================================= *)
(** ** The driver and its data-quality checks *)

(** A check of [main] builds an exception and drops it: whatever the
    count, nothing is raised and the storage is untouched. *)
Lemma quality_check_no_effect (cond : bool) (e : exn) (st : storage) :
  if_ cond (expression e) st = (Ok tt, st).
Proof. destruct cond; reflexivity. Qed.

(** With [raise] in the place of the dropped expression, the check would
    stop the run before any write. *)
Lemma quality_check_with_raise (e : exn) (k : stmt unit) (st : storage) :
  (if_ true (raise e) ;;; k) st = (Raise e, st).
Proof. reflexivity. Qed.

(** C1 does not hold of the code: on inputs for which all seven relations
    are empty, [main] passes its checks, returns normally and writes the
    seven outputs, all without rows. *)
Theorem main_writes_empty_relations
  (evaluate : list sid.row -> exn -> result (list sid.row)) :
  main example_eq "out/" evaluate [] [] empty_blocks []
  = (Ok tt,
     [ mkparquet "out/fact_immigrations.parquet"
                 ["entry_year"; "entry_month"; "port_code"]%string
                 (immigration_fact []);
       mkparquet "out/dim_city_demographics.parquet" ["state_code"%string]
                 (city_demographics []);
       mkparquet "out/dim_country.parquet" [] (countries []);
       mkparquet "out/dim_us_state.parquet" [] (us_states []);
       mkparquet "out/dim_ports.parquet" [] (ports []);
       mkparquet "out/dim_travel_mode.parquet" [] (travel_modes []);
       mkparquet "out/dim_visa_category.parquet" [] (visa_categories []) ]).
Proof. reflexivity. Qed.

Lemma append_eqb (dir a b : string) :
  String.eqb (String.append dir a) (String.append dir b) = String.eqb a b.
Proof.
  induction dir as [|c dir IH]; [reflexivity|]. cbn.
  now rewrite Ascii.eqb_refl.
Qed.

Lemma append_prefix (dir a b : string) :
  String.prefix (String.append dir a) (String.append dir b)
  = String.prefix a b.
Proof.
  induction dir as [|c dir IH]; [reflexivity|]. cbn.
  destruct (ascii_dec c c) as [_|N]; [exact IH | now destruct N].
Qed.

Lemma append_append (a b c : string) :
  String.append (String.append a b) c = String.append a (String.append b c).
Proof. induction a as [|x a IH]; [reflexivity|]. cbn. now rewrite IH. Qed.

Lemma within_append (dir a b : string) :
  within (String.append dir a) (String.append dir b) = within a b.
Proof.
  unfold within. now rewrite append_eqb, append_append, append_prefix.
Qed.

(** Whenever the label document parses and the immigration relation
    cleans, [main] returns normally with the seven outputs written: no
    count makes it stop. *)
Lemma main_always_writes (code_eq : option text -> value -> tv)
  (dir : string) (evaluate : list sid.row -> exn -> result (list sid.row))
  (immigration_df : list sid.row)
  (us_demographics_df : list sud.row) (file_data : text)
  (c : list sc.row) (p : list i94port.row) (s : list sus.row)
  (m : list stm.row) (v : list svc.row) (i : list sid.row) :
  get_i94_countries file_data = Ok c ->
  get_i94_ports file_data = Ok p ->
  get_i94_states file_data = Ok s ->
  get_i94_travel_modes file_data = Ok m ->
  get_i94_visas file_data = Ok v ->
  clean_immigration_data immigration_df = Ok i ->
  exists st,
    main code_eq dir evaluate immigration_df us_demographics_df file_data []
    = (Ok tt, st)
    /\ written_paths st
       = map (String.append dir)
             ["fact_immigrations.parquet"; "dim_city_demographics.parquet";
              "dim_country.parquet"; "dim_us_state.parquet";
              "dim_ports.parquet"; "dim_travel_mode.parquet";
              "dim_visa_category.parquet"]%string.
Proof.
  intros Ec Ep Es Em Ev Ei. unfold main, seq, call.
  rewrite Ec, Ep, Es, Em, Ev, Ei. rewrite !quality_check_no_effect.
  unfold write, out.
  repeat first
    [ rewrite within_append
    | progress cbn [filter app path negb]
    | match goal with
      | |- context [within ?a ?b] =>
          let v := eval vm_compute in (within a b) in
          first [constr_eq v false | constr_eq v true];
          change (within a b) with v
      end ].
  eexists. split; reflexivity.
Qed.

(* ################################################################# *)
(** * Further properties of the pipeline *)

(* ================================================================= *)
(** ** The demographics cleaner, again *)

Lemma filter_fixed {A} (f : A -> bool) (l : list A) :
  (forall a, In a l -> f a = true) -> filter f l = l.
Proof.
  induction l as [|a l IH]; intros H; [reflexivity|]. cbn [filter].
  rewrite (H a (or_introl eq_refl)). f_equal. apply IH.
  intros b Hb. apply H. now right.
Qed.

Lemma normalize_double_idempotent (c : option double) :
  sud.normalize_double (sud.normalize_double c) = sud.normalize_double c.
Proof.
  destruct c as [x|]; [|reflexivity]. cbn [sud.normalize_double].
  destruct (Z.eqb_spec x negative_zero) as [->|N]; [reflexivity|].
  destruct (Z.eqb_spec x negative_zero); [contradiction | reflexivity].
Qed.

Lemma normalize_idempotent (r : sud.row) :
  sud.normalize (sud.normalize r) = sud.normalize r.
Proof.
  unfold sud.normalize.
  cbn [sud.city sud.state sud.median_age sud.male_population
       sud.female_population sud.total_population sud.number_of_veterans
       sud.foreign_born sud.average_household_size sud.state_code sud.race
       sud.count].
  now rewrite !normalize_double_idempotent.
Qed.

Lemma map_fixed {A} (f : A -> A) (l : list A) :
  (forall a, In a l -> f a = a) -> map f l = l.
Proof.
  induction l as [|a l IH]; intros H; [reflexivity|]. cbn [map].
  rewrite (H a (or_introl eq_refl)). f_equal. apply IH.
  intros b Hb. apply H. now right.
Qed.

(** X1: the demographics cleaner is idempotent; what it returns has no
    duplicates, no row of it holds a NULL or a NaN, and every row of it is
    a row of the input with its negative zeros made zero.  A row with a
    NaN is dropped, and two rows that differ in the sign of a zero are one
    row. *)
Theorem clean_us_demographics_data_idempotent
  (us_demographics_df : list sud.row) :
  clean_us_demographics_data (clean_us_demographics_data us_demographics_df)
  = clean_us_demographics_data us_demographics_df
  /\ NoDup (clean_us_demographics_data us_demographics_df)
  /\ Forall (fun r => sud.has_null r = false
                      /\ exists r0, In r0 us_demographics_df
                                    /\ r = sud.normalize r0)
            (clean_us_demographics_data us_demographics_df)
  /\ (forall r, sud.has_null r = false ->
        sud.median_age r <> None /\ sud.average_household_size r <> None
        /\ sud.is_nan (sud.median_age r) = false
        /\ sud.is_nan (sud.average_household_size r) = false)
  /\ clean_us_demographics_data
       [sud.mk (Some (txt "Atlanta")) (Some (txt "Georgia"))
               (Some 9221120237041090560) (Some 40) (Some 60) (Some 100)
               (Some 7) (Some 9) (Some 4612586738352862003)
               (Some (txt "GA")) (Some (txt "White")) (Some 1);
        sud.mk (Some (txt "Atlanta")) (Some (txt "Georgia"))
               (Some negative_zero) (Some 40) (Some 60) (Some 100)
               (Some 7) (Some 9) (Some 4612586738352862003)
               (Some (txt "GA")) (Some (txt "White")) (Some 1);
        sud.mk (Some (txt "Atlanta")) (Some (txt "Georgia"))
               (Some 0) (Some 40) (Some 60) (Some 100)
               (Some 7) (Some 9) (Some 4612586738352862003)
               (Some (txt "GA")) (Some (txt "White")) (Some 1)]
     = [sud.mk (Some (txt "Atlanta")) (Some (txt "Georgia"))
               (Some 0) (Some 40) (Some 60) (Some 100)
               (Some 7) (Some 9) (Some 4612586738352862003)
               (Some (txt "GA")) (Some (txt "White")) (Some 1)].
Proof.
  assert (N : NoDup (clean_us_demographics_data us_demographics_df))
    by apply NoDup_nodup.
  split; [|split; [exact N|split; [|split; [|reflexivity]]]].
  - unfold clean_us_demographics_data at 1. unfold dropDuplicates.
    rewrite filter_fixed, map_fixed.
    + now apply nodup_fixed_point.
    + intros r Hr.
      apply clean_us_demographics_data_In in Hr as [(r0 & _ & ->) _].
      apply normalize_idempotent.
    + intros r Hr. apply clean_us_demographics_data_In in Hr as [_ Hr].
      now rewrite Hr.
  - apply Forall_forall. intros r Hr.
    apply clean_us_demographics_data_In in Hr as [Hr Hn]. now split.
  - intros r. unfold sud.has_null.
    rewrite !orb_false_iff, negb_false_iff, !andb_true_iff,
      !is_not_null_true.
    tauto.
Qed.

(* ================================================================= *)
(** ** The fact table, again *)

(** X2: with the states relation cleaned as [main] cleans it, no row of
    the fact table carries the state code ["99"], nor a NULL state
    code. *)
Theorem fact_table_without_sentinel_state
  (code_eq : option text -> value -> tv) (immigration_df : list sid.row)
  (countries_df : list sc.row) (states_df : list sus.row)
  (ports_df : list sp.row) (visa_categories_df : list svc.row)
  (travel_modes_df : list stm.row) :
  Forall (fun f => fact.us_state_code f <> Some (txt "99")
                   /\ fact.us_state_code f <> None)
         (create_immigration_fact_table code_eq immigration_df countries_df
            (clean_states_data states_df) ports_df visa_categories_df
            travel_modes_df).
Proof.
  apply Forall_forall. intros f Hf.
  apply in_table in Hf as (s & c & p & u & v & m & _ & _ & _ & Hu & _ & _ & ->).
  destruct Hu as (Hu & Hn & _). cbn [select_clause col fact.us_state_code].
  split; [|exact Hn].
  apply filter_In in Hu as [_ Hu]. apply sql_neq_true in Hu.
  destruct Hu as (x & -> & ne). intros [= E]. contradiction.
Qed.

(** X3: the fact table is built row by row of the immigration relation:
    the table of a relation in two parts is the table of the first part
    followed by the table of the second. *)
Theorem create_immigration_fact_table_app
  (code_eq : option text -> value -> tv) (part1 part2 : list sid.row)
  (countries_df : list sc.row) (us_states_df : list sus.row)
  (ports_df : list sp.row) (visa_categories_df : list svc.row)
  (travel_modes_df : list stm.row) :
  create_immigration_fact_table code_eq (part1 ++ part2) countries_df
    us_states_df ports_df visa_categories_df travel_modes_df
  = create_immigration_fact_table code_eq part1 countries_df us_states_df
      ports_df visa_categories_df travel_modes_df
    ++ create_immigration_fact_table code_eq part2 countries_df us_states_df
         ports_df visa_categories_df travel_modes_df.
Proof. apply table_app. Qed.

Lemma left_join_length {A B} (on : A -> B -> tv) (l : list A) (r : list B) :
  (forall a, (length (filter (fun b => holds (on a b)) r) <= 1)%nat) ->
  length (left_join on l r) = length l.
Proof.
  intros H. unfold left_join. induction l as [|a l IH]; [reflexivity|].
  cbn [flat_map]. rewrite length_app, IH. cbn [length]. f_equal.
  specialize (H a).
  destruct (filter (fun b => holds (on a b)) r) as [|x [|y ms]];
    cbn in *; lia.
Qed.

(** X4: when no cell matches two rows of a code-book, the joins do not
    multiply rows: the fact table has at most as many rows as the
    immigration relation. *)
Theorem create_immigration_fact_table_length
  (code_eq : option text -> value -> tv) (immigration_df : list sid.row)
  (countries_df : list sc.row) (us_states_df : list sus.row)
  (ports_df : list sp.row) (visa_categories_df : list svc.row)
  (travel_modes_df : list stm.row) :
  single_match code_eq sc.country_code countries_df ->
  single_match code_eq sp.port_code ports_df ->
  single_match code_eq sus.state_code us_states_df ->
  single_match code_eq svc.visa_category_id visa_categories_df ->
  single_match code_eq stm.mode_id travel_modes_df ->
  (length (create_immigration_fact_table code_eq immigration_df countries_df
             us_states_df ports_df visa_categories_df travel_modes_df)
   <= length immigration_df)%nat.
Proof.
  intros Hc Hp Hu Hv Hm. unfold create_immigration_fact_table.
  rewrite length_map. etransitivity; [apply filter_length_le|].
  unfold from_clause, joined. cbv zeta.
  rewrite (@left_join_length _ _ _ _ travel_modes_df)
    by (intros a; apply Hm).
  rewrite (@left_join_length _ _ _ _ visa_categories_df)
    by (intros a; apply Hv).
  rewrite (@left_join_length _ _ _ _ us_states_df) by (intros a; apply Hu).
  rewrite (@left_join_length _ _ _ _ ports_df) by (intros a; apply Hp).
  rewrite (@left_join_length _ _ _ _ countries_df) by (intros a; apply Hc).
  reflexivity.
Qed.

Lemma create_immigration_fact_table_length_witness :
  (length
     (create_immigration_fact_table example_eq
        [arrival (VNum 20573) VNull (VNum 1979);
         arriving (VStr (txt "99")) (VNum 20574) VNull (VNum 1980)]
        [sc.mk (Some (txt "692")) (Some (txt "ECUADOR"))]
        [sus.mk (Some (txt "GA")) (Some (txt "GEORGIA"))]
        [sp.mk (Some (txt "ATL")) (Some (txt "ATLANTA")) (Some (txt "GA"))]
        [svc.mk (Some (txt "2")) (Some (txt "Pleasure"))]
        [stm.mk (Some (txt "1")) (Some (txt "Air"))])
   <= 2)%nat.
Proof.
  apply (@create_immigration_fact_table_length example_eq
           [arrival (VNum 20573) VNull (VNum 1979);
            arriving (VStr (txt "99")) (VNum 20574) VNull (VNum 1980)]);
    intros v; cbn [filter];
    match goal with
    | |- context [holds ?b] => destruct (holds b)
    end; cbn; lia.
Defined.

(* ================================================================= *)
(** ** The countries cleaner, again *)
Lemma startswith_replace_all (w s : text) :
  na_free w = true ->
  startswith w (replace_all false false s) = true -> startswith w s = true.
Proof.
  revert s. induction w as [|a w IH]; intros s Hw; [reflexivity|].
  cbn [na_free] in Hw. apply andb_true_iff in Hw as [Ha Hw].
  destruct s as [|c s]; [cbn; congruence|].
  rewrite replace_all_cons.
  destruct (matches_here false (c :: s)).
  - cbn [txt list_ascii_of_string app startswith].
    destruct (Ascii.eqb a "N"%char); [|discriminate]. cbn [andb].
    destruct w as [|d w]; [discriminate|]. cbn [startswith].
    apply negb_true_iff in Ha. rewrite Ha. discriminate.
  - cbn [startswith]. intros H. apply andb_true_iff in H as [H1 H2].
    rewrite H1. cbn [andb]. now apply IH.
Qed.

Lemma line_terminator_no_match (c : ascii) (s : text) (b : bool) :
  line_terminator c = true -> matches_here b (c :: s) = false.
Proof.
  intros H. rewrite matches_here_alternatives.
  cbn [txt list_ascii_of_string startswith].
  destruct (Ascii.eqb_spec "N"%char c) as [<-|]; [discriminate|].
  destruct (Ascii.eqb_spec "I"%char c) as [<-|]; [discriminate|].
  destruct (Ascii.eqb_spec "C"%char c) as [<-|]; [discriminate|].
  now destruct b.
Qed.

Lemma matches_here_replace_all (b : bool) (c : ascii) (s : text) :
  matches_here b (c :: s) = false ->
  matches_here b (c :: replace_all false false s) = false.
Proof.
  rewrite !matches_here_alternatives. intros H.
  apply orb_false_iff in H as [H H3]. apply orb_false_iff in H as [H1 H2].
  assert (K : forall w, na_free w = true ->
            startswith w (c :: s) = false ->
            startswith w (c :: replace_all false false s) = false).
  { intros w Hw Hs.
    destruct (startswith w (c :: replace_all false false s)) eqn:E;
      [|reflexivity].
    destruct w as [|a w]; [discriminate|]. cbn [startswith] in *.
    apply andb_true_iff in E as [E1 E2]. rewrite E1 in Hs. cbn [andb] in Hs.
    cbn [na_free] in Hw. apply andb_true_iff in Hw as [_ Hw].
    now rewrite (startswith_replace_all _ _ Hw E2) in Hs. }
  rewrite (K (txt "INVALID") eq_refl H2), (K (txt "Collapsed") eq_refl H3).
  destruct b; cbn [andb orb] in *; [|reflexivity].
  now rewrite (K (txt "No Country") eq_refl H1).
Qed.

Lemma replace_all_settled (s : text) :
  replace_all false false (replace_all false false s)
  = replace_all false false s
  /\ replace_all false false (replace_all false true s)
     = replace_all false true s.
Proof.
  induction s as [|c s [IH1 IH2]]; [split; reflexivity|]. split.
  - rewrite (replace_all_cons false false c s).
    destruct (matches_here false (c :: s)) eqn:M.
    + cbn [txt list_ascii_of_string app].
      rewrite replace_all_cons.
      assert (M1 : forall t, matches_here false ("N"%char :: t) = false).
      { intros t. rewrite matches_here_alternatives. reflexivity. }
      assert (M2 : forall t, matches_here false ("A"%char :: t) = false).
      { intros t. rewrite matches_here_alternatives. reflexivity. }
      rewrite M1, replace_all_cons, M2, IH2. reflexivity.
    + rewrite replace_all_cons, (@matches_here_replace_all _ c s M), IH1.
      reflexivity.
  - rewrite (replace_all_cons false true c s).
    destruct (line_terminator c) eqn:T; [|exact IH2].
    rewrite replace_all_cons, (@line_terminator_no_match c _ false T), IH1.
    reflexivity.
Qed.

Lemma replace_all_idempotent (s : text) :
  replace_all true false (replace_all true false s) = replace_all true false s.
Proof.
  destruct s as [|c s]; [reflexivity|].
  rewrite (replace_all_cons true false c s).
  destruct (matches_here true (c :: s)) eqn:M.
  - cbn [txt list_ascii_of_string app]. rewrite replace_all_cons.
    assert (M1 : forall t, matches_here true ("N"%char :: "A"%char :: t)
                           = false).
    { intros t. rewrite matches_here_alternatives. reflexivity. }
    assert (M2 : forall t, matches_here false ("A"%char :: t) = false).
    { intros t. rewrite matches_here_alternatives. reflexivity. }
    rewrite M1, replace_all_cons, M2, (proj2 (replace_all_settled s)).
    reflexivity.
  - rewrite replace_all_cons, (@matches_here_replace_all _ c s M),
      (proj1 (replace_all_settled s)).
    reflexivity.
Qed.

(** X5: the countries cleaner is idempotent: a name it has rewritten holds
    no placeholder word any more, so a second cleaning changes nothing. *)
Theorem clean_countries_data_idempotent (countries_df : list sc.row) :
  clean_countries_data (clean_countries_data countries_df)
  = clean_countries_data countries_df.
Proof.
  unfold clean_countries_data. rewrite map_map. apply map_ext.
  intros [code [name|]]; cbn [sc.country_code sc.country_name regexp_replace
                              option_map]; [|reflexivity].
  now rewrite replace_all_idempotent.
Qed.

(* ================================================================= *)
(** ** The aggregation of the demographics *)

Lemma total_cons (c : option Z) (cells : list (option Z)) :
  total (c :: cells) = match c with Some z => z | None => 0 end + total cells.
Proof. destruct c; reflexivity. Qed.

Lemma total_SUM (cells rest : list (option Z)) :
  total (SUM cells :: rest) = total cells + total rest.
Proof.
  induction cells as [|[z|] cells IH]; cbn [SUM]; [reflexivity| |exact IH].
  destruct (SUM cells) as [t|]; rewrite !total_cons in *; lia.
Qed.

Lemma total_group_split (column : sud.row -> option Z) (k : key)
  (df : list sud.row) :
  total (map column df)
  = total (map column (group k df))
    + total (map column
               (filter (fun r => if key_eq_dec (group_key r) k
                                 then false else true) df)).
Proof.
  unfold group. induction df as [|r df IH]; [reflexivity|].
  cbn [filter map]. destruct (key_eq_dec (group_key r) k);
    cbn [map]; rewrite !total_cons; lia.
Qed.

Lemma group_filter_other (k k' : key) (df : list sud.row) :
  k' <> k ->
  group k' (filter (fun r => if key_eq_dec (group_key r) k
                             then false else true) df)
  = group k' df.
Proof.
  intros ne. unfold group. induction df as [|r df IH]; [reflexivity|].
  cbn [filter]. destruct (key_eq_dec (group_key r) k) as [e|n].
  - destruct (key_eq_dec (group_key r) k'); [congruence | exact IH].
  - cbn [filter]. destruct (key_eq_dec (group_key r) k'); now rewrite IH.
Qed.

Lemma total_groups (column : sud.row -> option Z) (keys : list key) :
  NoDup keys ->
  forall df,
    (forall r, In r df -> In (group_key r) keys) ->
    total (map (fun k => SUM (map column (group k df))) keys)
    = total (map column df).
Proof.
  induction 1 as [|k ks Hk Hks IH]; intros df Hdf.
  - destruct df as [|r df]; [reflexivity|].
    contradiction (Hdf r (or_introl eq_refl)).
  - cbn [map]. rewrite total_SUM, (total_group_split column k df).
    f_equal. rewrite <- IH.
    + f_equal. apply map_ext_in. intros k' Hk'.
      rewrite group_filter_other; [reflexivity|]. intros ->. contradiction.
    + intros r Hr. apply filter_In in Hr as [Hr Hne].
      destruct (key_eq_dec (group_key r) k) as [e|n]; [discriminate|].
      destruct (Hdf r Hr) as [E|E]; [congruence | exact E].
Qed.

Lemma aggregated_df_total (column : sud.row -> option Z)
  (sum : cd.row -> option Z) (df : list sud.row) :
  (forall k rows, sum (aggregate k rows) = SUM (map column rows)) ->
  total (map sum (aggregated_df df)) = total (map column df).
Proof.
  intros H. unfold aggregated_df. rewrite map_map.
  rewrite (map_ext _ (fun k => SUM (map column (group k df))))
    by (intros k; apply H).
  apply total_groups; [apply NoDup_nodup|].
  intros r Hr. apply nodup_In, in_map, Hr.
Qed.

(** X6: grouping by city and state code loses nothing and splits nothing:
    for each of the five summed columns the sums of the groups add up to
    the sum of the column over the whole relation, and no two rows of the
    aggregated relation have the same city and state code. *)
Theorem aggregated_df_keeps_totals (us_demographics_df : list sud.row) :
  total (map cd.male_population (aggregated_df us_demographics_df))
  = total (map sud.male_population us_demographics_df)
  /\ total (map cd.female_population (aggregated_df us_demographics_df))
     = total (map sud.female_population us_demographics_df)
  /\ total (map cd.total_population (aggregated_df us_demographics_df))
     = total (map sud.total_population us_demographics_df)
  /\ total (map cd.number_of_veterans (aggregated_df us_demographics_df))
     = total (map sud.number_of_veterans us_demographics_df)
  /\ total (map cd.num_foreign_born (aggregated_df us_demographics_df))
     = total (map sud.foreign_born us_demographics_df)
  /\ NoDup (map (fun a => (cd.city a, cd.state_code a))
                (aggregated_df us_demographics_df)).
Proof.
  repeat split; try (apply aggregated_df_total; reflexivity).
  unfold aggregated_df. rewrite map_map. cbn [aggregate cd.city cd.state_code].
  rewrite (map_ext _ (fun k => k)) by (intros [a b]; reflexivity).
  rewrite map_id. apply NoDup_nodup.
Qed.

(* ================================================================= *)
(** ** The immigration cleaner, again *)

(** The date behind a converted offset. *)
Lemma get_isoformat_date_Ok (d : Z) (y : value) :
  d <> 0 -> get_isoformat_date (VNum d) = Ok y ->
  exists dt, valid_date dt /\ toordinal dt = 715510 + d
             /\ y = VStr (isoformat dt).
Proof.
  intros Hd. cbn [get_isoformat_date].
  destruct (Z.eqb_spec d 0); [contradiction|].
  unfold date_add. rewrite toordinal_epoch.
  destruct (999999999 <? Z.abs d); [discriminate|].
  destruct (Z.ltb_spec 0 (715510 + d)); [|discriminate].
  destruct (Z.leb_spec (715510 + d) _MAXORDINAL); [|discriminate].
  destruct (@_ord2ymd_spec (715510 + d)) as [V O]; [lia|].
  revert V O. generalize (_ord2ymd (715510 + d)). intros dt V O.
  cbn [andb bind]. intros [= <-]. exists dt.
  split; [exact V|]. split; [exact O | reflexivity].
Qed.

(** X7: on whole offsets the date conversion loses no information: two
    whole offsets other than 0 that are converted to the same date are the
    same offset.  It is not so on all offsets: 20573.75 is converted to the
    date of 20573. *)
Theorem get_isoformat_date_injective :
  (forall d1 d2 y,
     d1 <> 0 -> d2 <> 0 ->
     get_isoformat_date (VNum d1) = Ok y ->
     get_isoformat_date (VNum d2) = Ok y ->
     d1 = d2)
  /\ get_isoformat_date (VFrac 20573 false (txt "75"))
     = get_isoformat_date (VNum 20573)
  /\ get_isoformat_date (VNum 20573) = Ok (VStr (txt "2016-04-29")).
Proof.
  split; [|split; reflexivity].
  intros d1 d2 y H1 H2 E1 E2.
  apply get_isoformat_date_Ok in E1 as (dt1 & V1 & O1 & ->); [|exact H1].
  apply get_isoformat_date_Ok in E2 as (dt2 & V2 & O2 & E); [|exact H2].
  assert (E' : isoformat dt1 = isoformat dt2) by congruence.
  apply isoformat_inj in E'; [|assumption|assumption]. subst dt2. lia.
Qed.

Lemma get_isoformat_date_injective_witness :
  get_isoformat_date (VNum 20573) = Ok (VStr (txt "2016-04-29"))
  /\ 20573 = 20573.
Proof.
  split; [reflexivity|].
  apply (proj1 get_isoformat_date_injective 20573 20573
           (VStr (txt "2016-04-29")));
    try reflexivity; lia.
Defined.

Lemma nodup_length {A} (dec : forall x y : A, {x = y} + {x <> y})
  (l : list A) : (length (nodup dec l) <= length l)%nat.
Proof.
  induction l as [|a l IH]; [reflexivity|]. cbn [nodup].
  destruct (in_dec dec a l); cbn [length]; lia.
Qed.

Lemma mapM_length {A B} (f : A -> result B) (l : list A) (l' : list B) :
  mapM f l = Ok l' -> length l' = length l.
Proof.
  revert l'. induction l as [|a l IH]; intros l'; cbn [mapM bind].
  - now intros [= <-].
  - destruct (f a); [|discriminate].
    destruct (mapM f l) as [bs|]; [|discriminate].
    intros [= <-]. cbn [length]. now rewrite (IH bs eq_refl).
Qed.

Lemma clean_immigration_row_columns (r r' : sid.row) :
  clean_immigration_row r = Ok r' ->
  r' = sid.with_biryear
         (sid.with_depdate (sid.with_arrdate r (sid.arrdate r'))
                           (sid.depdate r'))
         (sid.biryear r').
Proof.
  unfold clean_immigration_row.
  destruct (get_isoformat_date (sid.arrdate r)) as [a|]; [|discriminate].
  destruct (get_isoformat_date (sid.depdate r)) as [d|]; [|discriminate].
  destruct (get_valid_birth_year (sid.biryear r)) as [b|]; [|discriminate].
  cbn [bind]. intros [= <-]. reflexivity.
Qed.

(** X8: the immigration cleaner returns no more rows than it was given,
    none of them twice, and each of them is a row of the input in which
    only the arrival date, the departure date and the birth year were
    replaced. *)
Theorem clean_immigration_data_other_columns
  (immigration_df cleaned : list sid.row) :
  clean_immigration_data immigration_df = Ok cleaned ->
  NoDup cleaned
  /\ (length cleaned <= length immigration_df)%nat
  /\ forall r', In r' cleaned ->
       exists r, In r immigration_df
                 /\ r' = sid.with_biryear
                           (sid.with_depdate
                              (sid.with_arrdate r (sid.arrdate r'))
                              (sid.depdate r'))
                           (sid.biryear r').
Proof.
  intros H. pose proof (clean_immigration_data_In _ H) as HIn.
  unfold clean_immigration_data, dropDuplicates in H.
  destruct (mapM clean_immigration_row immigration_df) as [rows|] eqn:E;
    [|discriminate].
  cbn [bind] in H. injection H as <-. split; [apply NoDup_nodup|]. split.
  - rewrite <- (mapM_length _ _ E). apply nodup_length.
  - intros r' Hr'. apply HIn in Hr' as (r & Hr & Er).
    exists r. split; [exact Hr | now apply clean_immigration_row_columns].
Qed.

Lemma clean_immigration_data_other_columns_witness :
  NoDup [arrival (VStr (txt "2016-04-29")) VNull (VStr (txt "1979.0"))].
Proof.
  apply (@clean_immigration_data_other_columns
           [arrival (VNum 20573) VNull (VNum 1979);
            arrival (VNum 20573) (VNum 0) (VNum 1979)]).
  reflexivity.
Defined.

(* ================================================================= *)
(** ** Trimmed ports and clean entries *)

Lemma strip_by_clear (p : ascii -> bool) (s : text) :
  clear_of p (strip_by p s).
Proof.
  destruct (strip_by_spec p s) as (lead & trail & _ & _ & _ & H1 & H2).
  now split.
Qed.

Lemma strip_by_In (p : ascii -> bool) (s : text) (c : ascii) :
  In c (strip_by p s) -> In c s.
Proof.
  destruct (strip_by_spec p s) as (lead & trail & E & _).
  intros H. rewrite E. apply in_or_app. right. apply in_or_app. now left.
Qed.

(** X10: every city and state code the ports cleaner returns is trimmed:
    neither begins nor ends with white space. *)
Theorem clean_ports_data_trimmed (ports_df : list i94port.row) :
  Forall (fun r => exists c s,
              sp.city r = Some c /\ sp.state_code r = Some s
              /\ clear_of isspace c /\ clear_of isspace s)
         (clean_ports_data ports_df).
Proof.
  apply Forall_forall. intros r Hr.
  unfold clean_ports_data, dropDuplicates in Hr.
  apply nodup_In, filter_In in Hr as [Hr Hk].
  apply in_map_iff in Hr as (raw & <- & _).
  apply negb_true_iff, ports_row_kept in Hk.
  destruct Hk as (c & n & _ & _ & _ & Ec & Es).
  cbn [sp.city sp.state_code]. rewrite Ec, Es.
  eexists _, _. split; [reflexivity|]. split; [reflexivity|].
  split; apply strip_by_clear.
Qed.

Lemma split_In (sep : ascii) (s part : text) (c : ascii) :
  In part (split sep s) -> In c part -> In c s /\ c <> sep.
Proof.
  revert part. induction s as [|x s IH]; intros part; cbn [split].
  - intros [<-|[]] [].
  - destruct (Ascii.eqb_spec x sep) as [->|ne].
    + intros [<-|H] Hc; [contradiction|].
      destruct (IH part H Hc). split; [now right | assumption].
    + destruct (split sep s) as [|p ps] eqn:E.
      * intros [<-|[]] [<-|[]]. split; [now left | exact ne].
      * intros [<-|H] Hc.
        -- destruct Hc as [<-|Hc]; [split; [now left | exact ne]|].
           destruct (IH p (or_introl eq_refl) Hc).
           split; [now right | assumption].
        -- destruct (IH part (or_intror H) Hc).
           split; [now right | assumption].
Qed.

Lemma upto_In (sep : ascii) (s : text) (c : ascii) :
  In c (upto sep s) -> In c s /\ c <> sep.
Proof.
  induction s as [|x s IH]; cbn [upto]; [intros []|].
  destruct (Ascii.eqb_spec x sep) as [->|ne]; [intros []|].
  intros [<-|H]; [split; [now left | exact ne]|].
  destruct (IH H). split; [now right | assumption].
Qed.

Lemma after_In (sep : ascii) (s : text) (c : ascii) :
  In c (after sep s) -> In c s.
Proof.
  induction s as [|x s IH]; cbn [after]; [intros []|].
  destruct (Ascii.eqb x sep); [now right|]. intros H. right. now apply IH.
Qed.

Lemma find_char_firstn (c : ascii) (s : text) (j : nat) :
  find [c] s = Some j -> ~ In c (firstn j s).
Proof.
  intros H Hin. apply find_Some_first in H as [_ Hmin].
  apply in_split in Hin as (a & b & E).
  specialize (Hmin a (b ++ skipn j s)).
  rewrite E, length_app in Hmin. cbn [length] in Hmin.
  assert (K : s = a ++ [c] ++ b ++ skipn j s).
  { rewrite <- (firstn_skipn j s) at 1. rewrite E, <- app_assoc.
    reflexivity. }
  specialize (Hmin K). lia.
Qed.

(** The entries of a line hold none of its [=], and no quote at either
    end. *)
Lemma entry_In (line : text) (p : text * text) :
  In p (entry line) ->
  clear_of isquote (fst p) /\ clear_of isquote (snd p)
  /\ forall c, In c (fst p) \/ In c (snd p) ->
               In c line /\ c <> "="%char.
Proof.
  unfold entry.
  destruct (count_occ ascii_dec line "="%char =? 1)%nat eqn:E;
    [|intros []].
  apply Nat.eqb_eq in E. intros [<-|[]]. cbn [fst snd].
  split; [apply strip_by_clear|]. split; [apply strip_by_clear|].
  intros c [H|H]; apply strip_by_In, strip_by_In in H.
  - now apply upto_In in H.
  - split; [now apply after_In in H|]. intros ->.
    assert (Hin : In "="%char line).
    { apply (count_occ_In ascii_dec). lia. }
    rewrite (count_occ_after _ _ Hin) in E.
    apply (count_occ_In ascii_dec) in H. lia.
Qed.

(** X11: no code and no name the parser returns begins or ends with a
    quote, and none holds an equals sign, a semicolon or a line feed. *)
Theorem get_data_from_sas_labels_file_clean_entries
  (file_data label_name : text) (pairs : list (text * text)) :
  get_data_from_sas_labels_file file_data label_name = Ok pairs ->
  Forall (fun p => plain (fst p) /\ plain (snd p)) pairs.
Proof.
  unfold get_data_from_sas_labels_file, index.
  destruct (find label_name file_data) as [i|]; [|discriminate].
  cbn [bind].
  destruct (find (txt ";") (skipn i file_data)) as [j|] eqn:F;
    [|discriminate].
  cbn [bind]. rewrite fold_left_add_line. cbn [app]. intros [= <-].
  apply Forall_forall. intros p Hp.
  apply in_flat_map in Hp as (line & Hline & Hp).
  destruct (entry_In _ _ Hp) as (Q1 & Q2 & Hc).
  assert (K : forall c, In c (fst p) \/ In c (snd p) ->
                c <> "="%char /\ c <> ";"%char /\ c <> LF).
  { intros c Hin. destruct (Hc c Hin) as [Hl Heq].
    destruct (split_In _ _ _ _ Hline Hl) as [Hb Hlf].
    split; [exact Heq|]. split; [|exact Hlf].
    intros ->. now apply (find_char_firstn _ _ F). }
  split; (split; [assumption|]); intros c Hin; apply K; auto.
Qed.

Lemma get_data_from_sas_labels_file_clean_entries_witness :
  Forall (fun p => plain (fst p) /\ plain (snd p))
         [(txt "ATL", txt "ATLANTA, GA     ")].
Proof.
  apply (@get_data_from_sas_labels_file_clean_entries label_document
           (txt "I94PORT")).
  reflexivity.
Defined.

(* ================================================================= *)
(** ** The driver, again *)

(** The parser raises nothing but [ValueError]. *)
Lemma get_data_from_sas_labels_file_Raise (file_data label_name : text)
  (e : exn) :
  get_data_from_sas_labels_file file_data label_name = Raise e ->
  exists what, e = ValueError what.
Proof.
  unfold get_data_from_sas_labels_file, index.
  destruct (find label_name file_data) as [i|]; cbn [bind].
  - destruct (find (txt ";") (skipn i file_data)) as [j|]; cbn [bind];
      [discriminate|].
    intros [= <-]. now exists Terminator.
  - intros [= <-]. now exists BlockName.
Qed.

Section MainProperties.

Variable code_eq : option text -> value -> tv.
Variable dir : string.
Variable evaluate : list sid.row -> exn -> result (list sid.row).
Variable immigration_df : list sid.row.
Variable us_demographics_df : list sud.row.
Variable file_data : text.

(** X12: the label document is read before anything is written: when one
    of the five block names occurs nowhere in it, [main] raises a
    [ValueError] and the storage is as it was. *)
Theorem main_raises_before_writing (name : text) (st : storage) :
  In name block_names -> absent name file_data ->
  exists what,
    main code_eq dir evaluate immigration_df us_demographics_df file_data st
    = (Raise (ValueError what), st).
Proof.
  intros Hname Habs.
  assert (P : get_data_from_sas_labels_file file_data name
              = Raise (ValueError BlockName)).
  { unfold get_data_from_sas_labels_file, index.
    now rewrite (find_absent Habs). }
  unfold main, seq, call, get_i94_countries, get_i94_ports, get_i94_states,
    get_i94_travel_modes, get_i94_visas.
  destruct (get_data_from_sas_labels_file file_data (txt "I94RES"))
    as [c|e1] eqn:Ec; cbn [bind];
    [|apply get_data_from_sas_labels_file_Raise in Ec as (w & ->);
      now exists w].
  destruct (get_data_from_sas_labels_file file_data (txt "I94PORT"))
    as [p|e2] eqn:Ep; cbn [bind];
    [|apply get_data_from_sas_labels_file_Raise in Ep as (w & ->);
      now exists w].
  destruct (get_data_from_sas_labels_file file_data (txt "I94ADDR"))
    as [s|e3] eqn:Es; cbn [bind];
    [|apply get_data_from_sas_labels_file_Raise in Es as (w & ->);
      now exists w].
  destruct (get_data_from_sas_labels_file file_data (txt "I94MODE"))
    as [m|e4] eqn:Em; cbn [bind];
    [|apply get_data_from_sas_labels_file_Raise in Em as (w & ->);
      now exists w].
  destruct (get_data_from_sas_labels_file file_data (txt "I94VISA"))
    as [v|e5] eqn:Ev; cbn [bind];
    [|apply get_data_from_sas_labels_file_Raise in Ev as (w & ->);
      now exists w].
  exfalso. destruct Hname as [<-|[<-|[<-|[<-|[<-|[]]]]]]; congruence.
Qed.

End MainProperties.

Lemma main_raises_before_writing_witness :
  exists what,
    main example_eq "out/" (fun _ e => Raise e) [] [] label_document []
    = (Raise (ValueError what), []).
Proof.
  apply (@main_raises_before_writing example_eq "out/" (fun _ e => Raise e)
           [] [] label_document (txt "I94RES") []).
  - left. reflexivity.
  - apply find_None_absent. reflexivity.
Defined.

(* ================================================================= *)
(** ** The parser, there and back *)

Lemma split_app (sep : ascii) (a b : text) :
  split sep (a ++ sep :: b) = split sep a ++ split sep b.
Proof.
  induction a as [|c a IH]; cbn [app split].
  - now rewrite Ascii.eqb_refl.
  - destruct (Ascii.eqb c sep); [now rewrite IH|].
    rewrite IH. destruct (split sep a) as [|p ps] eqn:E; [|reflexivity].
    rewrite split_unfold in E. discriminate.
Qed.

Lemma split_none (sep : ascii) (s : text) :
  ~ In sep s -> split sep s = [s].
Proof.
  intros H. rewrite split_unfold.
  destruct (existsb (Ascii.eqb sep) s) eqn:E.
  - apply existsb_eqb_In in E. contradiction.
  - f_equal. apply upto_all. now apply count_occ_not_In.
Qed.

Lemma entry_none (line : text) : ~ In "="%char line -> entry line = [].
Proof.
  intros H. unfold entry.
  now rewrite (proj1 (count_occ_not_In ascii_dec line "="%char) H).
Qed.

Lemma lstrip_by_stop (p : ascii -> bool) (c : ascii) (s : text) :
  p c = false -> lstrip_by p (c :: s) = c :: s.
Proof. intros H. cbn [lstrip_by]. now rewrite H. Qed.

Lemma lstrip_by_skip (p : ascii -> bool) (c : ascii) (s : text) :
  p c = true -> lstrip_by p (c :: s) = lstrip_by p s.
Proof. intros H. cbn [lstrip_by]. now rewrite H. Qed.

(** Between quotes, a plain text comes back from the two strips. *)
Lemma strip_quoted (lead trail s : text) :
  forallb isspace lead = true -> forallb isspace trail = true ->
  clear_of isquote s ->
  strip_chars (txt "'") (strip (lead ++ txt "'" ++ s ++ txt "'" ++ trail)) = s.
Proof.
  intros Hl Ht [H1 H2].
  assert (Q : isspace "'"%char = false) by reflexivity.
  assert (S1 : strip (lead ++ txt "'" ++ s ++ txt "'" ++ trail)
               = txt "'" ++ s ++ txt "'").
  { unfold strip, strip_by, rstrip_by.
    assert (L : forall l t, forallb isspace l = true ->
                  lstrip_by isspace (l ++ "'"%char :: t) = "'"%char :: t).
    { induction l as [|x l IH]; intros t Hx; cbn [app].
      - now apply lstrip_by_stop.
      - cbn [forallb] in Hx. apply andb_true_iff in Hx as [Hx Hx'].
        cbn [lstrip_by]. rewrite Hx. now apply IH. }
    cbn [txt list_ascii_of_string app]. rewrite (L lead _ Hl).
    replace (rev ("'"%char :: s ++ "'"%char :: trail))
      with (rev trail ++ "'"%char :: rev s ++ ["'"%char]).
    - rewrite L.
      + cbn [rev]. rewrite rev_app_distr, rev_involutive. reflexivity.
      + rewrite forallb_forall in *. intros x Hx. apply Ht.
        now apply in_rev.
    - cbn [rev]. rewrite rev_app_distr. cbn [rev].
      rewrite <- !app_assoc. reflexivity. }
  rewrite S1. unfold strip_chars, strip_by, rstrip_by.
  fold isquote.
  change (fun c => existsb (Ascii.eqb c) (txt "'")) with isquote.
  cbn [txt list_ascii_of_string app].
  assert (Qq : isquote "'"%char = true) by reflexivity.
  destruct s as [|c s].
  - cbn. reflexivity.
  - cbn [app]. rewrite (lstrip_by_skip _ _ _ Qq).
    rewrite (lstrip_by_stop _ _ _ H1).
    replace (rev (c :: s ++ ["'"%char]))
      with ("'"%char :: rev (c :: s))
      by (rewrite app_comm_cons, rev_app_distr; reflexivity).
    rewrite (lstrip_by_skip _ _ _ Qq).
    destruct (rev (c :: s)) as [|d r] eqn:E.
    + apply (f_equal (@length ascii)) in E. rewrite length_rev in E.
      discriminate.
    + rewrite (lstrip_by_stop _ _ _ H2), <- E. apply rev_involutive.
Qed.

Lemma upto_app (sep : ascii) (a b : text) :
  ~ In sep a -> upto sep (a ++ sep :: b) = a.
Proof.
  induction a as [|x a IH]; intros H; cbn [app upto].
  - now rewrite Ascii.eqb_refl.
  - destruct (Ascii.eqb_spec x sep) as [->|_].
    + contradiction H. now left.
    + f_equal. apply IH. intros Hin. apply H. now right.
Qed.

Lemma after_app (sep : ascii) (a b : text) :
  ~ In sep a -> after sep (a ++ sep :: b) = b.
Proof.
  induction a as [|x a IH]; intros H; cbn [app after].
  - now rewrite Ascii.eqb_refl.
  - destruct (Ascii.eqb_spec x sep) as [->|_].
    + contradiction H. now left.
    + apply IH. intros Hin. apply H. now right.
Qed.

Lemma render_entry_parts (p : text * text) :
  render_entry p
  = (txt "'" ++ fst p ++ txt "' ") ++ "="%char :: txt " '" ++ snd p ++ txt "'".
Proof.
  unfold render_entry. cbn [txt list_ascii_of_string app].
  f_equal. rewrite <- !app_assoc. reflexivity.
Qed.

Lemma entry_render (p : text * text) :
  plain (fst p) -> plain (snd p) -> entry (render_entry p) = [p].
Proof.
  destruct p as [c n]. cbn [fst snd]. intros [Qc Hc] [Qn Hn].
  assert (Nc : ~ In "="%char (txt "'" ++ c ++ txt "' ")).
  { intros H. apply in_app_or in H as [H|H].
    - destruct H as [H|[]]. discriminate H.
    - apply in_app_or in H as [H|H]; [now destruct (Hc _ H)|].
      destruct H as [H|[H|[]]]; discriminate H. }
  assert (Nn : ~ In "="%char (txt " '" ++ n ++ txt "'")).
  { intros H. apply in_app_or in H as [H|H].
    - destruct H as [H|[H|[]]]; discriminate H.
    - apply in_app_or in H as [H|H]; [now destruct (Hn _ H)|].
      destruct H as [H|[]]. discriminate H. }
  unfold entry. rewrite render_entry_parts. cbn [fst snd].
  rewrite (@upto_app _ _ _ Nc), (@after_app _ _ _ Nc).
  rewrite count_occ_app. cbn [count_occ].
  destruct (ascii_dec "="%char "="%char) as [_|ne]; [|contradiction].
  rewrite (proj1 (count_occ_not_In ascii_dec _ "="%char) Nc).
  rewrite (proj1 (count_occ_not_In ascii_dec _ "="%char) Nn).
  cbn [Nat.add Nat.eqb]. f_equal. f_equal.
  - apply (@strip_quoted [] [" "%char] c); [reflexivity|reflexivity|exact Qc].
  - apply (@strip_quoted [" "%char] [] n); [reflexivity|reflexivity|].
    exact Qn.
Qed.

Lemma render_entry_line (p : text * text) :
  plain (fst p) -> plain (snd p) ->
  ~ In LF (render_entry p) /\ ~ In ";"%char (render_entry p).
Proof.
  intros [_ Hc] [_ Hn]. unfold render_entry.
  split; intros H;
    repeat (apply in_app_or in H as [H|H]);
    try (now destruct (Hc _ H)); try (now destruct (Hn _ H));
    cbn in H; intuition discriminate.
Qed.

Lemma entries_none (s : text) :
  ~ In "="%char s -> flat_map entry (split LF s) = [].
Proof.
  intros H. destruct (flat_map entry (split LF s)) as [|p ps] eqn:E;
    [reflexivity|]. exfalso.
  assert (Hp : In p (flat_map entry (split LF s))) by (rewrite E; now left).
  apply in_flat_map in Hp as (line & Hline & Hp).
  rewrite entry_none in Hp; [contradiction|].
  intros Hin. apply H. exact (proj1 (split_In _ _ _ _ Hline Hin)).
Qed.

(** The entries of the lines of a rendered list of pairs. *)
Lemma entries_render (pairs : list (text * text)) (last : text) :
  Forall (fun p => plain (fst p) /\ plain (snd p)) pairs ->
  flat_map entry
    (split LF (flat_map (fun p => render_entry p ++ [LF]) pairs ++ last))
  = pairs ++ flat_map entry (split LF last).
Proof.
  induction 1 as [|p pairs [Hc Hn] _ IH]; [reflexivity|].
  cbn [flat_map]. rewrite <- !app_assoc. cbn [app].
  rewrite split_app, flat_map_app, IH.
  destruct (@render_entry_line p Hc Hn) as [Hlf _].
  rewrite (@split_none _ _ Hlf). cbn [flat_map].
  now rewrite (@entry_render p Hc Hn).
Qed.

(** X15: a round trip through the parser: a block written out as the name
    of the block, one line ['code' = 'name'] for each pair and a closing
    semicolon is read back as the list of pairs it was written from,
    whatever follows the block in the document. *)
Theorem get_data_from_sas_labels_file_render
  (label_name rest : text) (pairs : list (text * text)) :
  ~ In "="%char label_name -> ~ In ";"%char label_name ->
  Forall (fun p => plain (fst p) /\ plain (snd p)) pairs ->
  get_data_from_sas_labels_file (render_block label_name pairs ++ rest)
                                label_name
  = Ok pairs.
Proof.
  intros Heq Hsemi Hp. unfold get_data_from_sas_labels_file, index.
  rewrite (@find_first label_name _ []).
  2:{ split; [|cbn; lia].
      exists (LF :: flat_map (fun p => render_entry p ++ [LF]) pairs
              ++ txt ";" ++ rest).
      unfold render_block. cbn [app]. rewrite <- !app_assoc. cbn [app].
      now rewrite <- app_assoc. }
  cbn [bind length skipn].
  set (block := label_name ++ LF
                :: flat_map (fun p => render_entry p ++ [LF]) pairs).
  assert (E : render_block label_name pairs ++ rest
              = block ++ ";"%char :: rest).
  { unfold render_block, block. cbn [txt list_ascii_of_string].
    rewrite <- !app_assoc. cbn [app]. now rewrite <- app_assoc. }
  assert (N : ~ In ";"%char block).
  { unfold block. intros H. apply in_app_or in H as [H|[H|H]].
    - contradiction.
    - discriminate H.
    - apply in_flat_map in H as (p & Hin & H).
      rewrite Forall_forall in Hp. destruct (Hp p Hin) as [Hc Hn].
      destruct (@render_entry_line p Hc Hn) as [_ Hs].
      apply in_app_or in H as [H|[H|[]]]; [contradiction | discriminate H]. }
  rewrite E. change (txt ";") with [";"%char].
  rewrite (@find_char _ _ rest N). cbn [bind].
  rewrite firstn_app, Nat.sub_diag, firstn_all. cbn [firstn].
  rewrite app_nil_r, fold_left_add_line. cbn [app]. f_equal.
  unfold block. rewrite split_app, flat_map_app.
  rewrite <- (app_nil_r (flat_map (fun p => render_entry p ++ [LF]) pairs)).
  rewrite (@entries_render pairs [] Hp), (@entries_none label_name Heq).
  cbn. now rewrite app_nil_r.
Qed.

Lemma get_data_from_sas_labels_file_render_witness :
  get_data_from_sas_labels_file
    (render_block (txt "I94MODE")
       [(txt "1", txt "Air"); (txt "2", txt "Sea")] ++ txt " I94VISA ;")
    (txt "I94MODE")
  = Ok [(txt "1", txt "Air"); (txt "2", txt "Sea")].
Proof.
  apply get_data_from_sas_labels_file_render.
  - cbn. intuition discriminate.
  - cbn. intuition discriminate.
  - assert (P : forall s, clear_of isquote s ->
                  forallb (fun c => negb (Ascii.eqb c "="%char
                                          || Ascii.eqb c ";"%char
                                          || Ascii.eqb c LF)) s = true ->
                  plain s).
    { intros s Q F. split; [exact Q|]. intros c Hc.
      rewrite forallb_forall in F. specialize (F c Hc).
      apply negb_true_iff in F. repeat split; intros ->; discriminate F. }
    repeat apply Forall_cons; try apply Forall_nil; split; apply P;
      try reflexivity; split; reflexivity.
Defined.

(* ================================================================= *)
(** ** The shape of the dates and of the dimension *)

Lemma isdigit_digit (k : Z) : 0 <= k <= 9 -> isdigit (digit k) = true.
Proof.
  intros H. unfold isdigit, digit. rewrite nat_ascii_embedding by lia.
  apply andb_true_iff. split; apply Nat.leb_le; lia.
Qed.

(** X14: whatever the cell, a converted date is NULL or has the shape
    YYYY-MM-DD: four digits, two digits and two digits, with dashes
    between. *)
Theorem get_isoformat_date_shape (x y : value) :
  get_isoformat_date x = Ok y ->
  y = VNull
  \/ exists y1 y2 y3 y4 m1 m2 d1 d2,
       y = VStr [y1; y2; y3; y4; "-"%char; m1; m2; "-"%char; d1; d2]
       /\ forallb isdigit [y1; y2; y3; y4; m1; m2; d1; d2] = true.
Proof.
  intros H. apply get_isoformat_date_text in H as [->|(dt & V & ->)];
    [now left|].
  right. destruct V as (Hy & Hm & Hday).
  pose proof (_days_in_month_le (year dt) Hm).
  unfold isoformat. do 8 eexists. split; [reflexivity|].
  cbn [forallb]. rewrite !isdigit_digit; [reflexivity|..];
    Z.div_mod_to_equations; lia.
Qed.

Lemma get_isoformat_date_shape_witness :
  VStr (txt "2016-04-29") = VNull
  \/ exists y1 y2 y3 y4 m1 m2 d1 d2,
       VStr (txt "2016-04-29")
       = VStr [y1; y2; y3; y4; "-"%char; m1; m2; "-"%char; d1; d2]
       /\ forallb isdigit [y1; y2; y3; y4; m1; m2; d1; d2] = true.
Proof.
  apply (@get_isoformat_date_shape (VNum 20573)). reflexivity.
Defined.

(** X16: built from cleaned relations, the city-demographics dimension
    holds no NULL. *)
Theorem create_city_demographics_dim_table_no_null
  (us_demographics_df : list sud.row) (i94ports : list i94port.row) :
  Forall (fun row =>
            dim.port_code row <> None
            /\ cd.city (dim.demographics row) <> None
            /\ cd.state_code (dim.demographics row) <> None
            /\ cd.male_population (dim.demographics row) <> None
            /\ cd.female_population (dim.demographics row) <> None
            /\ cd.total_population (dim.demographics row) <> None
            /\ cd.number_of_veterans (dim.demographics row) <> None
            /\ cd.num_foreign_born (dim.demographics row) <> None)
         (create_city_demographics_dim_table
            (clean_us_demographics_data us_demographics_df)
            (clean_ports_data i94ports)).
Proof.
  apply Forall_forall. intros row Hrow.
  unfold create_city_demographics_dim_table in Hrow.
  apply in_map_iff in Hrow as ([p a] & <- & H). cbn [fst snd].
  apply in_inner_join in H as (Hp & Ha & _).
  cbn [dim.port_code dim.demographics]. split.
  - unfold clean_ports_data, dropDuplicates in Hp.
    apply nodup_In, filter_In in Hp as [Hp Hk].
    apply in_map_iff in Hp as (raw & <- & _).
    apply negb_true_iff, ports_row_kept in Hk.
    destruct Hk as (c & n & Ec & _). cbn [sp.port_code]. congruence.
  - apply in_aggregated_df in Ha as (r & Hr & ->).
    pose proof Hr as Hn.
    apply clean_us_demographics_data_In in Hn as [_ Hn].
    apply has_null_false in Hn as (Nc & Ns & _).
    destruct (sud.city r) as [c|] eqn:Ec; [|congruence].
    destruct (sud.state_code r) as [st|] eqn:Es; [|congruence].
    rewrite (aggregate_cleaned _ r Hr Ec Es).
    cbn [cd.city cd.state_code cd.male_population cd.female_population
         cd.total_population cd.number_of_veterans cd.num_foreign_born].
    repeat split; discriminate.
Qed.
